(** * sutil: read-through value cache, log context and message payloads

    A shallow embedding of three Go packages of the repository:
    - [cache/value]  (value.go): the cache-aside [Get]/[Del] over a redis
      client, with key normalisation ([keyToString], [fixKey]);
    - [slog] (context part): [extractTraceID], [extractHead],
      [extractContext];
    - [mq] (payload part): [generatePayload], [generateMsgsPayload],
      [parsePayload].

    Conventions.  A Go [error] is observed by the code only through
    [err == nil] and [err.Error()], so an error is its message.  A pair
    [(x, err)] returned by a Go function is a [result].  [[]byte] is
    [list Byte.byte] and [string] is [string]; the conversions [[]byte(s)] and
    [string(b)] are written out.  Calls of [slog.Infof/Warnf/Errorf] and the
    span opened by [Get]/[Del] write log lines and trace records only; they
    do not take part in the control flow and are left out of the cache
    model.  Every call of the store client and of the loader is recorded in
    a trace, so that "the loader is not invoked" and "the store is not
    re-read" are statements about that trace. *)

From Stdlib Require Import ZArith String Ascii List DecimalString DecimalZ DecimalPos DecimalN DecimalFacts.
From Stdlib.Strings Require Import Byte.
From stdpp Require Import base option list gmap strings.

Local Open Scope Z_scope.
Local Open Scope string_scope.

(** ** Go basics *)

Module Go.

(** A Go [error] value that is not [nil]. *)
Record error := errors_New { Error : string }.

(** The two-valued return [(x, err)] of a fallible Go function. *)
Inductive result (A : Type) :=
| Ok (a : A)
| Fail (e : error).
Arguments Ok {A} a.
Arguments Fail {A} e.

(** [[]byte(s)] and [string(b)]. *)
Definition bytes_of (s : string) : list Byte.byte := list_byte_of_string s.
Definition string_of (b : list Byte.byte) : string := string_of_list_byte b.

(** [fmt.Sprintf("%d", n)] for an integer of any kind: signed base 10. *)
Definition Sprintf_d (n : Z) : string := NilZero.string_of_int (Z.to_int n).

(** Reading a base-10 text back, used to state what [Sprintf_d] produces. *)
Definition Atoi (s : string) : option Z :=
  match NilZero.int_of_string s with
  | Some d => Some (Z.of_int d)
  | None => None
  end.

Definition is_digit (c : ascii) : bool :=
  let n := nat_of_ascii c in (48 <=? n)%nat && (n <=? 57)%nat.

(** A decimal text carries no padding when, after an optional minus sign,
    it starts with a digit that is not [0], or is the single digit [0]. *)
Definition unpadded (s : string) : bool :=
  match s with
  | String "0" EmptyString => true
  | String "-" (String c _) => is_digit c && negb (Ascii.eqb c "0")
  | String c _ => is_digit c && negb (Ascii.eqb c "0")
  | EmptyString => false
  end.

(** [strings.Replace(s, old, new, -1)] for one-byte [old] and [new]. *)
Fixpoint Replace1 (s : string) (old new : ascii) : string :=
  match s with
  | EmptyString => EmptyString
  | String c s' =>
      String (if Ascii.eqb c old then new else c) (Replace1 s' old new)
  end.

(** Range of a [w]-bit signed and unsigned integer. *)
Definition int_range (w : Z) (n : Z) : Prop := - 2 ^ (w - 1) <= n < 2 ^ (w - 1).
Definition uint_range (w : Z) (n : Z) : Prop := 0 <= n < 2 ^ w.

End Go.
Export Go.

(** ** opentracing, as far as the code uses it *)

Module Opentracing.

(** [jaeger.TraceID{High, Low uint64}]. *)
Record TraceID := { High : Z; Low : Z }.

(** [opentracing.SpanContext]: the jaeger implementation, which exposes a
    trace identifier, or the context of some other tracer. *)
Inductive SpanContext :=
| JaegerSpanContext (traceID : TraceID) (spanID : Z)
| ForeignSpanContext (name : string).

(** The options [parsePayload] passes to [StartSpan]. *)
Inductive StartSpanOption :=
| RPCServerOption (client : SpanContext).

(** A started span: what it was started with and the context it got. *)
Record Span := {
  OperationName : string;
  SpanOptions : list StartSpanOption;
  SpanCtx : SpanContext
}.

(** [opentracing.TextMapCarrier], a [map[string]string]. *)
Abbreviation TextMapCarrier := (gmap string string).

(** [opentracing.GlobalTracer()].  [Inject] fills the carrier it is given
    (its error is ignored by the callers); [Extract] may fail. *)
Class Tracer := {
  Inject : SpanContext -> TextMapCarrier -> TextMapCarrier;
  Extract : TextMapCarrier -> result SpanContext;
  StartSpan : string -> list StartSpanOption -> Span
}.

(** A span is a root span when it was started without a reference. *)
Definition is_root (sp : Span) : bool :=
  match SpanOptions sp with
  | [] => true
  | _ => false
  end.

End Opentracing.
Export Opentracing.

(** ** context.Context *)

Module Ctx.

(** Values stored in a [map[string]interface{}] header projection. *)
Inductive Any :=
| AnyNil
| AnyInt64 (n : Z)
| AnyString (s : string)
| AnyTraceID (t : TraceID).

(** What [ctx.Value("Head")] can return: nothing, a value that implements
    [contextHeader] (its [toKV()] projection is carried), or a value of
    some other type. *)
Inductive HeadVal :=
| HeadNil
| HeadKV (toKV : gmap string Any)
| HeadOther (descr : string).

(** A non-nil context: the active span and the value under ["Head"]. *)
Record Context := {
  SpanFromContext : option Span;
  ValueHead : HeadVal
}.

Definition Background : Context :=
  {| SpanFromContext := None; ValueHead := HeadNil |}.

Definition ContextWithSpan (ctx : Context) (sp : Span) : Context :=
  {| SpanFromContext := Some sp; ValueHead := ValueHead ctx |}.

(** [context.WithValue(ctx, "Head", h)]. *)
Definition WithValueHead (ctx : Context) (h : HeadVal) : Context :=
  {| SpanFromContext := SpanFromContext ctx; ValueHead := h |}.

End Ctx.
Export Ctx.

(** ** encoding/json *)

Module Json.

(** [json.Marshal(v)] and [json.Unmarshal(data, &slot)] over the values
    [V] held by an [interface{}].  [Unmarshal] gets the present content
    of the slot and returns its content afterwards. *)
Class Codec (V : Type) := {
  Marshal : V -> result (list Byte.byte);
  Unmarshal : list Byte.byte -> V -> V * option error
}.

End Json.
Export Json.

(** ** The redis client *)

Module Redis.

(** Modelled from the spec: the store client of package [cache/redis],
    which is not among the sources.  Section 6 asks for GET, SET with a
    TTL and DEL addressed by the canonical key, against an instance
    resolved by namespace, and for a GET whose "not found" can be told
    from its other failures.  [RedisNil] is the text of that condition;
    [GetInstance] says whether the instance manager has a client for the
    namespace.  Every operation may change the state of the store. *)
Class Client (St : Type) := {
  RedisNil : string;
  GetInstance : St -> string -> bool;
  client_Get : St -> string -> St * result (list Byte.byte);
  client_Set : St -> string -> list Byte.byte -> Z -> St * option error;
  client_Del : St -> string -> St * option error
}.

(** Modelled from the spec: a store that keeps its entries in memory.  An
    entry is created by SET and "expires after a fixed TTL": it is
    readable while the clock is before its deadline.  During an outage
    every operation fails with the outage's error. *)
Record MemStore := {
  ms_entries : gmap string (list Byte.byte * Z);
  ms_now : Z;
  ms_instances : list string;
  ms_outage : option error
}.

Definition ms_nil : string := "redis: nil".

Definition ms_get (s : MemStore) (skey : string) : MemStore * result (list Byte.byte) :=
  match ms_outage s with
  | Some e => (s, Fail e)
  | None =>
      match ms_entries s !! skey with
      | Some (data, deadline) =>
          if (ms_now s <? deadline)%Z then (s, Ok data)
          else (s, Fail (errors_New ms_nil))
      | None => (s, Fail (errors_New ms_nil))
      end
  end.

Definition ms_set (s : MemStore) (skey : string) (data : list Byte.byte) (ttl : Z)
  : MemStore * option error :=
  match ms_outage s with
  | Some e => (s, Some e)
  | None =>
      ({| ms_entries := <[skey := (data, ms_now s + ttl)]> (ms_entries s);
          ms_now := ms_now s;
          ms_instances := ms_instances s;
          ms_outage := ms_outage s |}, None)
  end.

Definition ms_del (s : MemStore) (skey : string) : MemStore * option error :=
  match ms_outage s with
  | Some e => (s, Some e)
  | None =>
      ({| ms_entries := delete skey (ms_entries s);
          ms_now := ms_now s;
          ms_instances := ms_instances s;
          ms_outage := ms_outage s |}, None)
  end.

(** Time passing between two calls. *)
Definition ms_elapse (dt : Z) (s : MemStore) : MemStore :=
  {| ms_entries := ms_entries s;
     ms_now := ms_now s + dt;
     ms_instances := ms_instances s;
     ms_outage := ms_outage s |}.

#[export] Instance MemClient : Client MemStore := {
  RedisNil := ms_nil;
  GetInstance s ns := bool_decide (ns ∈ ms_instances s);
  client_Get := ms_get;
  client_Set := ms_set;
  client_Del := ms_del
}.

End Redis.
Export Redis.

(** ** Package cache/value *)

Module ValueCache.

(** The dynamic type and value of a [key interface{}].  [KOther] is a key
    of any type the switch of [keyToString] does not list ([uint],
    [float64], [bool], ...), with its [%v] rendering. *)
Inductive Key :=
| KString (s : string)
| KInt8 (n : Z)
| KInt16 (n : Z)
| KInt32 (n : Z)
| KInt64 (n : Z)
| KUint8 (n : Z)
| KUint16 (n : Z)
| KUint32 (n : Z)
| KUint64 (n : Z)
| KInt (n : Z)
| KOther (repr : string).

(** The keys a Go program can build: every integer within its width. *)
Definition key_wf (key : Key) : Prop :=
  match key with
  | KString _ | KOther _ => True
  | KInt8 n => int_range 8 n
  | KInt16 n => int_range 16 n
  | KInt32 n => int_range 32 n
  | KInt64 n | KInt n => int_range 64 n
  | KUint8 n => uint_range 8 n
  | KUint16 n => uint_range 16 n
  | KUint32 n => uint_range 32 n
  | KUint64 n => uint_range 64 n
  end.

(** The integer a numeric key holds. *)
Definition key_int (key : Key) : option Z :=
  match key with
  | KInt8 n | KInt16 n | KInt32 n | KInt64 n
  | KUint8 n | KUint16 n | KUint32 n | KUint64 n | KInt n => Some n
  | KString _ | KOther _ => None
  end.

(** [fmt.Sprintf("%v", key)]. *)
Definition Sprintf_v (key : Key) : string :=
  match key with
  | KString s => s
  | KOther repr => repr
  | KInt8 n | KInt16 n | KInt32 n | KInt64 n
  | KUint8 n | KUint16 n | KUint32 n | KUint64 n | KInt n => Sprintf_d n
  end.

(** [type LoadFunc func(key interface{}) (value interface{}, err error)]
    and [type Cache struct].  The loader answers by key; a state of its
    own is not modelled, its calls are recorded.  [expire] is a
    [time.Duration], a number of nanoseconds. *)
Record Cache (V : Type) := {
  namespace : string;
  prefix : string;
  load : Key -> result V;
  expire : Z
}.
Arguments namespace {V} c.
Arguments prefix {V} c.
Arguments load {V} c key.
Arguments expire {V} c.

Definition NewCache {V : Type} (namespace prefix : string) (expire : Z)
    (load : Key -> result V) : Cache V :=
  {| namespace := Replace1 namespace "/" ".";
     prefix := prefix;
     load := load;
     expire := expire |}.

Definition keyToString {V : Type} (m : Cache V) (key : Key) : string * option error :=
  match key with
  | KString t => (t, None)
  | KInt8 n => (Sprintf_d n, None)
  | KInt16 n => (Sprintf_d n, None)
  | KInt32 n => (Sprintf_d n, None)
  | KInt64 n => (Sprintf_d n, None)
  | KUint8 n => (Sprintf_d n, None)
  | KUint16 n => (Sprintf_d n, None)
  | KUint32 n => (Sprintf_d n, None)
  | KUint64 n => (Sprintf_d n, None)
  | KInt n => (Sprintf_d n, None)
  | KOther _ => ("", Some (errors_New "key err: unsupported type"))
  end.

Definition fixKey {V : Type} (m : Cache V) (key : Key) : string * option error :=
  let '(skey, err) := keyToString m key in
  match err with
  | Some err => ("", Some err)
  | None =>
      if (0 <? String.length (prefix m))%nat
      then (prefix m +:+ "." +:+ skey, None)
      else (skey, None)
  end.

(** The calls that leave the package, in the order they are made. *)
Inductive Event :=
| EvGet (skey : string)
| EvSet (skey : string) (data : list Byte.byte) (expiration : Z)
| EvDel (skey : string)
| EvLoad (key : Key).

Definition is_load (ev : Event) : bool :=
  match ev with EvLoad _ => true | _ => false end.
Definition is_set (ev : Event) : bool :=
  match ev with EvSet _ _ _ => true | _ => false end.
Definition is_get (ev : Event) : bool :=
  match ev with EvGet _ => true | _ => false end.

Definition count (p : Event -> bool) (tr : list Event) : nat :=
  length (filter (fun ev => p ev = true) tr).

Record World (St : Type) := {
  store : St;
  calls : list Event
}.
Arguments store {St} w.
Arguments calls {St} w.
Arguments Build_World {St} store calls.

(** State passing over the world. *)
Definition M (St A : Type) : Type := World St -> A * World St.

Definition ret {St A : Type} (a : A) : M St A := fun w => (a, w).

Definition bind {St A B : Type} (c : M St A) (k : A -> M St B) : M St B :=
  fun w => let '(a, w') := c w in k a w'.

Declare Scope go_scope.
Delimit Scope go_scope with go.
Notation "x <- c ;; k" := (bind c (fun x => k))
  (at level 20, c at level 99, k at level 200, only parsing) : go_scope.
Notation "' pat <- c ;; k" := (bind c (fun x => match x with pat => k end))
  (at level 20, pat pattern, c at level 99, k at level 200, only parsing) : go_scope.

Section Calls.
Context {V : Type} {St : Type} `{!Client St}.

Definition instance (ns : string) : M St bool :=
  fun w => (GetInstance (store w) ns, w).

Definition redis_Get (skey : string) : M St (result (list Byte.byte)) :=
  fun w =>
    let '(s', r) := client_Get (store w) skey in
    (r, Build_World s' (calls w ++ [EvGet skey])).

Definition redis_Set (skey : string) (data : list Byte.byte) (expiration : Z)
  : M St (option error) :=
  fun w =>
    let '(s', r) := client_Set (store w) skey data expiration in
    (r, Build_World s' (calls w ++ [EvSet skey data expiration])).

Definition redis_Del (skey : string) : M St (option error) :=
  fun w =>
    let '(s', r) := client_Del (store w) skey in
    (r, Build_World s' (calls w ++ [EvDel skey])).

Definition call_load (m : Cache V) (key : Key) : M St (result V) :=
  fun w => (load m key, Build_World (store w) (calls w ++ [EvLoad key])).

End Calls.

Definition instance_err (ns : string) : error :=
  errors_New ("get instance err, namespace: " +:+ ns).

Section Cache.
Context {V : Type} `{!Codec V} {St : Type} `{!Client St}.
Local Open Scope go_scope.

Definition getValueFromCache (m : Cache V) (key : Key) (value : V)
  : M St (V * option error) :=
  let '(skey, err) := fixKey m key in
  match err with
  | Some err => ret (value, Some err)
  | None =>
      client <- instance (namespace m) ;;
      if negb client then ret (value, Some (instance_err (namespace m)))
      else
        r <- redis_Get skey ;;
        match r with
        | Fail err => ret (value, Some err)
        | Ok data => ret (Unmarshal data value)
        end
  end.

(** [value, err := m.load(key)] declares [err].  The later [skey, err :=
    m.fixKey(key)] stands in the same block, so it declares [skey] only
    and assigns to that same [err]: the second [let] below rebinds
    [err], and the [err] tested after the [Set] is the one [fixKey]
    returned. *)
Definition loadValueToCache (m : Cache V) (key : Key) : M St (option error) :=
  r <- call_load m key ;;
  let '(data, err) :=
    match r with
    | Fail err => (bytes_of (Error err), Some err)
    | Ok value =>
        match Marshal value with
        | Fail err => (bytes_of (Error err), Some err)
        | Ok data => (data, None)
        end
    end in
  let '(skey, err) := fixKey m key in
  match err with
  | Some err => ret (Some err)
  | None =>
      client <- instance (namespace m) ;;
      if negb client then ret (Some (instance_err (namespace m)))
      else
        rerr <- redis_Set skey data (expire m) ;;
        match err with
        | Some err => ret (Some err)
        | None => ret rerr
        end
  end.

Definition Get (m : Cache V) (key : Key) (value : V) : M St (V * option error) :=
  let fun_ := "Cache.Get -->" in
  '(value, err) <- getValueFromCache m key value ;;
  match err with
  | None => ret (value, None)
  | Some err =>
      if negb (String.eqb (Error err) RedisNil)
      then ret (value,
                Some (errors_New (fun_ +:+ " cache key: " +:+ Sprintf_v key
                                    +:+ " err: " +:+ Error err)))
      else
        err <- loadValueToCache m key ;;
        match err with
        | Some err => ret (value, Some err)
        | None => getValueFromCache m key value
        end
  end.

Definition Del (m : Cache V) (key : Key) : M St (option error) :=
  let '(skey, err) := fixKey m key in
  match err with
  | Some err => ret (Some err)
  | None =>
      client <- instance (namespace m) ;;
      if negb client then ret (Some (instance_err (namespace m)))
      else
        err <- redis_Del skey ;;
        match err with
        | Some err =>
            ret (Some (errors_New ("del cache key: " +:+ Sprintf_v key
                                     +:+ " err: " +:+ Error err)))
        | None => ret None
        end
  end.

(** The bytes [loadValueToCache] hands to [Set] for a key: the encoded
    value, or the text of the loader's or the encoder's error. *)
Definition entry_of (m : Cache V) (key : Key) : list Byte.byte :=
  match load m key with
  | Fail err => bytes_of (Error err)
  | Ok value =>
      match Marshal value with
      | Fail err => bytes_of (Error err)
      | Ok data => data
      end
  end.

(** The error of the load step itself: the loader's, or the encoder's. *)
Definition load_err (m : Cache V) (key : Key) : option error :=
  match load m key with
  | Fail err => Some err
  | Ok value =>
      match Marshal value with
      | Fail err => Some err
      | Ok _ => None
      end
  end.

End Cache.

(** The text of the error [Get] builds when the first read fails. *)
Definition Get_err (key : Key) (err : error) : error :=
  errors_New ("Cache.Get -->" +:+ " cache key: " +:+ Sprintf_v key
                +:+ " err: " +:+ Error err).

End ValueCache.
Export ValueCache.

(** ** Package slog: the context of a log line *)

Module Slog.

Definition contextKeyOpUid : string := "uid".
Definition contextKeyTraceID : string := "traceID".

(** [type contextKV map[string]interface{}]; the nil map reads as [∅]. *)
Abbreviation contextKV := (gmap string Any).

Definition emptyTrace : contextKV :=
  {[ contextKeyTraceID := AnyTraceID {| High := 0; Low := 0 |} ]}.
Definition emptyHead : contextKV :=
  {[ contextKeyOpUid := AnyInt64 0 ]}.

Definition ErrorTraceIDNotFound : error := errors_New "traceID not found".
Definition ErrorHeadKVNotFound : error := errors_New "valid context head not found".

Definition newContextKV : contextKV := ∅.

Definition extractTraceID (ctx : Context) : option error * contextKV :=
  let ckv := newContextKV in
  match SpanFromContext ctx with
  | Some span =>
      match SpanCtx span with
      | JaegerSpanContext traceID _ =>
          (None, <[contextKeyTraceID := AnyTraceID traceID]> ckv)
      | ForeignSpanContext _ => (Some ErrorTraceIDNotFound, ∅)
      end
  | None => (Some ErrorTraceIDNotFound, ∅)
  end.

(** [kv[contextKeyOpUid]] of a map without that key is the nil
    interface. *)
Definition extractHead (ctx : Context) (fullHead : bool) : option error * contextKV :=
  match ValueHead ctx with
  | HeadKV toKV =>
      let kv := toKV in
      if fullHead then (None, toKV)
      else (None, {[ contextKeyOpUid := default AnyNil (kv !! contextKeyOpUid) ]})
  | HeadNil | HeadOther _ => (Some ErrorHeadKVNotFound, ∅)
  end.

(** [ctx] is an interface value and may be nil: [None]. *)
Definition extractContext (ctx : option Context) (fullHead : bool) : list contextKV :=
  let v : list contextKV := [] in
  match ctx with
  | None => v
  | Some ctx =>
      let v :=
        match extractTraceID ctx with
        | (None, ckv) => (v ++ [ckv])%list
        | (Some _, _) => (v ++ [emptyTrace])%list
        end in
      let v :=
        match extractHead ctx fullHead with
        | (None, ckv) => (v ++ [ckv])%list
        | (Some _, _) => (v ++ [emptyHead])%list
        end in
      v
  end.

End Slog.
Export Slog.

(** ** Package mq: the payload of a message *)

Module Mq.

Record Payload := {
  Carrier : TextMapCarrier;
  Value : string;
  Head : HeadVal
}.

(** [type Message struct { Key; Value interface{} }].  The declaration is
    not among the sources: the type [K] of the key is left open, and the
    content [T] of [Value] is a caller's value on the way in and a
    [*Payload] on the way out. *)
Record Message (K T : Type) := {
  MsgKey : K;
  MsgValue : T
}.
Arguments MsgKey {K T} m.
Arguments MsgValue {K T} m.
Arguments Build_Message {K T} MsgKey MsgValue.

Section Payload.
Context {V : Type} {codec : Codec V} {tracer : Tracer}.

(** The carrier both generators build from the context. *)
Definition inject_span (ctx : Context) : TextMapCarrier :=
  let carrier : TextMapCarrier := ∅ in
  match SpanFromContext ctx with
  | Some span => Inject (SpanCtx span) carrier
  | None => carrier
  end.

Definition generatePayload (ctx : Context) (value : V)
  : option Payload * option error :=
  let carrier := inject_span ctx in
  match Marshal value with
  | Fail err => (None, Some err)
  | Ok msg =>
      let head := ValueHead ctx in
      (Some {| Carrier := carrier; Value := string_of msg; Head := head |}, None)
  end.

(** [for _, msg := range msgs { ... nmsgs = append(nmsgs, ...) }]. *)
Fixpoint range_msgs {K : Type} (carrier : TextMapCarrier) (head : HeadVal)
    (msgs : list (Message K V)) (nmsgs : list (Message K Payload))
  : option (list (Message K Payload)) * option error :=
  match msgs with
  | [] => (Some nmsgs, None)
  | msg :: msgs' =>
      match Marshal (MsgValue msg) with
      | Fail err => (None, Some err)
      | Ok body =>
          range_msgs carrier head msgs'
            (nmsgs ++ [ {| MsgKey := MsgKey msg;
                           MsgValue := {| Carrier := carrier;
                                          Value := string_of body;
                                          Head := head |} |} ])%list
      end
  end.

Definition generateMsgsPayload {K : Type} (ctx : Context) (msgs : list (Message K V))
  : option (list (Message K Payload)) * option error :=
  let carrier := inject_span ctx in
  let head := ValueHead ctx in
  range_msgs carrier head msgs [].

(** The span [parsePayload] starts for a carrier. *)
Definition server_span (payload : Payload) (opName : string) : Span :=
  match Extract (Carrier payload) with
  | Ok spanCtx => StartSpan opName [RPCServerOption spanCtx]
  | Fail _ => StartSpan opName []
  end.

(** Returns [(ctx, err)] and the content of the slot [value] points
    to. *)
Definition parsePayload (payload : Payload) (opName : string) (value : V)
  : (option Context * option error) * V :=
  let span := server_span payload opName in
  let ctx := Background in
  let ctx := ContextWithSpan ctx span in
  let ctx := WithValueHead ctx (Head payload) in
  let '(value, err) := Unmarshal (bytes_of (Value payload)) value in
  match err with
  | Some err => ((None, Some err), value)
  | None => ((Some ctx, None), value)
  end.

End Payload.

End Mq.
Export Mq.

(** ** Collaborators to run the code with *)

Module Fixture.

(** Values of two kinds: an integer, which encodes as its decimal text,
    and a channel, which [json.Marshal] refuses. *)
Inductive Val :=
| VInt (n : Z)
| VChan.

Definition val_Marshal (v : Val) : result (list Byte.byte) :=
  match v with
  | VInt n => Ok (bytes_of (Sprintf_d n))
  | VChan => Fail (errors_New "json: unsupported type: chan int")
  end.

Definition val_Unmarshal (data : list Byte.byte) (slot : Val) : Val * option error :=
  match Atoi (string_of data) with
  | Some n =>
      if String.eqb (Sprintf_d n) (string_of data) then (VInt n, None)
      else (slot, Some (errors_New "json: invalid number literal"))
  | None => (slot, Some (errors_New "json: invalid character looking for beginning of value"))
  end.

#[export] Instance ValCodec : Codec Val := {
  Marshal := val_Marshal;
  Unmarshal := val_Unmarshal
}.

(** A tracer that carries the trace and span identifiers as two decimal
    entries of the carrier. *)
Definition fx_Inject (sc : SpanContext) (carrier : TextMapCarrier) : TextMapCarrier :=
  match sc with
  | JaegerSpanContext t s =>
      <["span-id" := Sprintf_d s]> (<["trace-id" := Sprintf_d (Low t)]> carrier)
  | ForeignSpanContext _ => carrier
  end.

Definition fx_notfound : error :=
  errors_New "opentracing: SpanContext not found in Extract carrier".

Definition fx_Extract (carrier : TextMapCarrier) : result SpanContext :=
  match carrier !! "trace-id", carrier !! "span-id" with
  | Some t, Some s =>
      match Atoi t, Atoi s with
      | Some t, Some s => Ok (JaegerSpanContext {| High := 0; Low := t |} s)
      | _, _ => Fail fx_notfound
      end
  | _, _ => Fail fx_notfound
  end.

Definition fx_StartSpan (opName : string) (opts : list StartSpanOption) : Span :=
  {| OperationName := opName;
     SpanOptions := opts;
     SpanCtx :=
       match opts with
       | RPCServerOption (JaegerSpanContext t s) :: _ => JaegerSpanContext t (s + 1)
       | _ => JaegerSpanContext {| High := 0; Low := 1 |} 1
       end |}.

#[export] Instance FxTracer : Tracer := {
  Inject := fx_Inject;
  Extract := fx_Extract;
  StartSpan := fx_StartSpan
}.

(** A loader that fails for the keys 13 and 404, returns a channel for
    key 7 and the integer itself for any other integer key. *)
Definition fx_load (key : Key) : result Val :=
  match key_int key with
  | Some 13 => Fail (errors_New "boom")
  | Some 404 => Fail (errors_New "404")
  | Some 7 => Ok VChan
  | Some n => Ok (VInt n)
  | None => Fail (errors_New "no such row")
  end.

(** The cache of the scenario of section 8: namespace [orders/cache],
    prefix [ord], TTL 5s (in nanoseconds). *)
Definition fx_cache : Cache Val := NewCache "orders/cache" "ord" 5000000000 fx_load.

(** An empty store that serves the namespace of [fx_cache]. *)
Definition fx_store : MemStore :=
  {| ms_entries := ∅; ms_now := 0; ms_instances := ["orders.cache"]; ms_outage := None |}.

Definition fx_world : World MemStore := Build_World fx_store [].

(** The same store during an outage. *)
Definition fx_store_down : MemStore :=
  {| ms_entries := ∅; ms_now := 0; ms_instances := ["orders.cache"];
     ms_outage := Some (errors_New "dial tcp: connection refused") |}.

End Fixture.
Export Fixture.

(** ** Package cache: the names of its constants *)

Module CachePkg.

(** [type CacheType int] with [CacheTypeRedis = iota]. *)
Definition CacheTypeRedis : Z := 0.

Definition CacheType_String (t : Z) : string :=
  if (t =? CacheTypeRedis)%Z then "redis" else "".

(** [type ConfigerType int] with its three constants. *)
Definition ConfigerTypeSimple : Z := 0.
Definition ConfigerTypeEtcd : Z := 1.
Definition ConfigerTypeApollo : Z := 2.

Definition ConfigerType_String (c : Z) : string :=
  if (c =? ConfigerTypeSimple)%Z then "simple"
  else if (c =? ConfigerTypeEtcd)%Z then "etcd"
  else if (c =? ConfigerTypeApollo)%Z then "apollo"
  else "unkown".

End CachePkg.
Export CachePkg.

(** ** Package slog: the text of a log context *)

Module SlogText.

Fixpoint spaces (n : nat) : string :=
  match n with
  | O => EmptyString
  | S n' => String " " (spaces n')
  end.

(** [fmt.Sprintf("%-10d", n)]: the decimal text, filled with blanks on the
    right up to ten characters. *)
Definition Sprintf_left10d (n : Z) : string :=
  let s := Sprintf_d n in
  s +:+ spaces (10 - String.length s).

(** [strings.Join(parts, sep)]. *)
Fixpoint Join (parts : list string) (sep : string) : string :=
  match parts with
  | [] => EmptyString
  | [p] => p
  | p :: ps => p +:+ sep +:+ Join ps sep
  end.

Section Text.

(** [jaeger.TraceID.String()], which belongs to the tracer's library. *)
Variable TraceID_String : TraceID -> string.

(** [fmt.Sprintf("%v", v)] of a value held by a [contextKV]. *)
Definition Sprint_v (v : Any) : string :=
  match v with
  | AnyNil => "<nil>"
  | AnyInt64 n => Sprintf_d n
  | AnyString s => s
  | AnyTraceID t => TraceID_String t
  end.

(** The body of [for k, v := range ckv] in [String]; [order] is the order
    in which the range statement yields the entries of the map, which Go
    leaves open. *)
Definition range_others (order : list (string * Any)) (parts : list string)
  : list string :=
  fold_left
    (fun parts kv =>
       if negb (String.eqb (fst kv) contextKeyOpUid)
          && negb (String.eqb (fst kv) contextKeyTraceID)
       then (parts ++ [fst kv +:+ ":" +:+ Sprint_v (snd kv)])%list
       else parts)
    order parts.

(** [func (ckv contextKV) String() string]. *)
Definition contextKV_String (ckv : contextKV) (order : list (string * Any)) : string :=
  let parts : list string := [] in
  let parts :=
    match ckv !! contextKeyTraceID with
    | Some v => (parts ++ [Sprint_v v])%list
    | None => parts
    end in
  let parts :=
    match ckv !! contextKeyOpUid with
    | Some (AnyInt64 uid) => (parts ++ [Sprintf_left10d uid; "  "])%list
    | _ => parts
    end in
  let parts := range_others order parts in
  Join parts " ".

(** [extractContextAsString]: [fmt.Sprint(kv)] of a [contextKV] is its
    [String()].  [range i kv] is the order in which the entries of the
    [i]-th element are yielded. *)
Definition extractContextAsString (ctx : option Context) (fullHead : bool)
    (range : nat -> contextKV -> list (string * Any)) : string :=
  let parts :=
    imap (fun i kv => contextKV_String kv (range i kv)) (extractContext ctx fullHead) in
  Join parts " ".

End Text.

(** An order a range statement can produce: the entries of the map, each
    once. *)
Definition range_of (ckv : contextKV) (order : list (string * Any)) : Prop :=
  order ≡ₚ map_to_list ckv.

End SlogText.
Export SlogText.

(** ** More collaborators to run the code with *)

Module Fixture2.

(** A replica that answers reads from its entries and refuses to write. *)
Record ReadOnly := { ro_inner : MemStore }.

Definition ro_err : error :=
  errors_New "READONLY You can't write against a read only replica.".

#[export] Instance ReadOnlyClient : Client ReadOnly := {
  RedisNil := ms_nil;
  GetInstance s ns := bool_decide (ns ∈ ms_instances (ro_inner s));
  client_Get s skey := (s, snd (ms_get (ro_inner s) skey));
  client_Set s skey data ttl := (s, Some ro_err);
  client_Del s skey := (s, Some ro_err)
}.

Definition fx_replica : World ReadOnly := Build_World {| ro_inner := fx_store |} [].

(** [fx_cache] with a TTL of zero. *)
Definition fx_cache0 : Cache Val := NewCache "orders/cache" "ord" 0 fx_load.

(** A store that holds the text [42] under [ord.42] until time 10. *)
Definition fx_store_warm : MemStore :=
  {| ms_entries := {[ "ord.42" := (bytes_of "42", 10) ]};
     ms_now := 0; ms_instances := ["orders.cache"]; ms_outage := None |}.

(** A store that serves no namespace. *)
Definition fx_store_lost : MemStore :=
  {| ms_entries := ∅; ms_now := 0; ms_instances := []; ms_outage := None |}.

End Fixture2.
Export Fixture2.

(** ** A codec that answers like encoding/json on whole numbers *)

Module FixtureJson.

(** An [int], a [float64] holding a whole number, and the nil interface.
    As a slot, [NInt] stands for an [int] variable and the other two for
    an [interface{}] variable. *)
Inductive Num :=
| NInt (n : Z)
| NFloat64 (n : Z)
| NIface.

(** Both number kinds encode as the decimal text; nil as [null]. *)
Definition num_Marshal (v : Num) : result (list Byte.byte) :=
  match v with
  | NInt n => Ok (bytes_of (Sprintf_d n))
  | NFloat64 n => Ok (bytes_of (Sprintf_d n))
  | NIface => Ok (bytes_of "null")
  end.

(** A number decoded into an [int] slot is an [int]; decoded into an
    [interface{}] slot it is a [float64], as encoding/json documents. *)
Definition num_Unmarshal (data : list Byte.byte) (slot : Num) : Num * option error :=
  if String.eqb (string_of data) "null" then
    (match slot with NInt n => NInt n | _ => NIface end, None)
  else
    match Atoi (string_of data) with
    | Some n =>
        if String.eqb (Sprintf_d n) (string_of data) then
          (match slot with NInt _ => NInt n | _ => NFloat64 n end, None)
        else (slot, Some (errors_New "json: invalid number literal"))
    | None =>
        (slot, Some (errors_New "json: invalid character looking for beginning of value"))
    end.

#[export] Instance NumCodec : Codec Num := {
  Marshal := num_Marshal;
  Unmarshal := num_Unmarshal
}.

End FixtureJson.
Export FixtureJson.

(** * Properties *)

Example scenario_cold_then_warm :
  let '(r1, w1) := Get fx_cache (KInt 42) VChan fx_world in
  let '(r2, w2) := Get fx_cache (KInt 42) VChan w1 in
  r1 = (VInt 42, None) /\ calls w1 = [EvGet "ord.42"; EvLoad (KInt 42);
                                       EvSet "ord.42" (bytes_of "42") 5000000000;
                                       EvGet "ord.42"] /\
  r2 = (VInt 42, None) /\ count is_load (calls w2) = 1%nat.
Proof. vm_compute. repeat split; reflexivity. Qed.

(** ** Decimal text *)

Section Decimal.

Lemma bytes_of_string_of (b : list Byte.byte) : bytes_of (string_of b) = b.
Proof. apply list_byte_of_string_of_list_byte. Qed.

Lemma string_of_bytes_of (s : string) : string_of (bytes_of s) = s.
Proof. apply string_of_list_byte_of_string. Qed.

Lemma to_int_proper (n : Z) :
  Z.to_int n <> Decimal.Pos Decimal.Nil /\ Z.to_int n <> Decimal.Neg Decimal.Nil.
Proof.
  destruct n as [|p|p]; simpl; split; try discriminate;
    intros [=E]; exact (DecimalPos.Unsigned.to_uint_nonnil p E).
Qed.

Lemma Atoi_Sprintf_d (n : Z) : Atoi (Sprintf_d n) = Some n.
Proof.
  unfold Atoi, Sprintf_d.
  destruct (to_int_proper n) as [Hp Hn].
  rewrite (NilZero.isi _ Hp Hn).
  f_equal. apply DecimalZ.of_to.
Qed.

Lemma Sprintf_d_inj (a b : Z) : Sprintf_d a = Sprintf_d b -> a = b.
Proof.
  intros E.
  assert (H : Atoi (Sprintf_d a) = Atoi (Sprintf_d b)) by (rewrite E; reflexivity).
  rewrite !Atoi_Sprintf_d in H. congruence.
Qed.

Lemma nzhead_no_D0 (u v : Decimal.uint) : Decimal.nzhead u <> Decimal.D0 v.
Proof. induction u; simpl; try discriminate. exact IHu. Qed.

Lemma to_uint_normal (p : positive) : Decimal.unorm (Pos.to_uint p) = Pos.to_uint p.
Proof.
  rewrite <- (DecimalPos.Unsigned.to_of (Pos.to_uint p)).
  rewrite DecimalPos.Unsigned.of_to. reflexivity.
Qed.

Lemma to_uint_head (p : positive) (u : Decimal.uint) : Pos.to_uint p <> Decimal.D0 u.
Proof.
  intros E.
  pose proof (to_uint_normal p) as Hn. rewrite E in Hn.
  rewrite DecimalFacts.unorm_D0 in Hn.
  unfold Decimal.unorm in Hn.
  destruct (Decimal.nzhead u) eqn:Hz; try discriminate.
  - injection Hn as <-.
    exact (DecimalPos.Unsigned.to_uint_nonzero p E).
  - exact (nzhead_no_D0 u _ Hz).
Qed.

Lemma unpadded_uint (p : positive) :
  exists c s, NilZero.string_of_uint (Pos.to_uint p) = String c s /\
              is_digit c = true /\ c <> "0"%char.
Proof.
  pose proof (to_uint_head p) as Hh.
  pose proof (DecimalPos.Unsigned.to_uint_nonnil p) as Hnil.
  destruct (Pos.to_uint p) as [|u|u|u|u|u|u|u|u|u|u]; simpl;
    [ contradiction | exfalso; exact (Hh u eq_refl) | .. ];
    eexists _, _; (split; [reflexivity | split; [reflexivity | discriminate]]).
Qed.

Lemma Sprintf_d_unpadded (n : Z) : unpadded (Sprintf_d n) = true.
Proof.
  destruct n as [|p|p]; [reflexivity | |]; unfold Sprintf_d; simpl Z.to_int;
    destruct (unpadded_uint p) as (c & s & E & Hd & Hz);
    apply Ascii.eqb_neq in Hz.
  - simpl NilZero.string_of_int. rewrite E.
    assert (Hg : unpadded (String c s) = is_digit c && negb (Ascii.eqb c "0") \/
                 unpadded (String c s) = true).
    { unfold unpadded. destruct (Ascii.eqb c "0") eqn:E0; [congruence|].
      destruct (Ascii.eqb c "-") eqn:Em.
      - apply Ascii.eqb_eq in Em. subst c. discriminate.
      - left. destruct c as [[] [] [] [] [] [] [] []]; try discriminate; reflexivity. }
    destruct Hg as [-> | ->]; [rewrite Hd, Hz|]; reflexivity.
  - simpl NilZero.string_of_int. rewrite E.
    simpl. rewrite Hd, Hz. reflexivity.
Qed.

End Decimal.

(** ** Key normalisation *)

Section KeyCodec.
Context {V : Type}.
Implicit Types (m : Cache V) (key : Key) (n : Z).

Lemma keyToString_numeric m key n :
  key_int key = Some n -> keyToString m key = (Sprintf_d n, None).
Proof. destruct key; simpl; intros [= ->]; reflexivity. Qed.

Lemma keyToString_supported m key :
  snd (keyToString m key) = None <-> (forall repr, key <> KOther repr).
Proof.
  destruct key; simpl; split; try discriminate; try reflexivity.
  intros H. exfalso. exact (H repr eq_refl).
Qed.

Lemma fixKey_ok m key skey :
  fixKey m key = (skey, None) ->
  exists s, keyToString m key = (s, None) /\
            skey = if (0 <? String.length (prefix m))%nat
                   then prefix m +:+ "." +:+ s else s.
Proof.
  unfold fixKey. destruct (keyToString m key) as [s [e|]]; [discriminate|].
  intros H. exists s. split; [reflexivity|].
  destruct (0 <? String.length (prefix m))%nat; congruence.
Qed.

(** C7, as the code has it.  Two numeric keys [k1], [k2] of any supported
    kind that hold the same integer [n] get the same canonical text, the
    base-10 text of [n] without padding: it reads back as [n] and does
    not start with a zero or a blank.  A text key is returned verbatim;
    so the text key spelling the digits of [n] gets the very text the
    numeric keys get. *)
Theorem keyToString_canonical m (k1 k2 : Key) n (s : string) :
  key_int k1 = Some n ->
  key_int k2 = Some n ->
  keyToString m k1 = (Sprintf_d n, None) /\
  keyToString m k2 = keyToString m k1 /\
  Atoi (Sprintf_d n) = Some n /\
  unpadded (Sprintf_d n) = true /\
  keyToString m (KString s) = (s, None) /\
  keyToString m (KString (Sprintf_d n)) = keyToString m k1.
Proof.
  intros H1 H2.
  rewrite (keyToString_numeric m k1 n H1), (keyToString_numeric m k2 n H2).
  repeat split; auto using Atoi_Sprintf_d, Sprintf_d_unpadded.
Qed.

(** C10.  A key of the platform-width kind [int] is accepted: its
    canonical text is the base-10 text of its value, which reads back as
    that value, and no error is returned. *)
Theorem keyToString_int_accepted m n :
  keyToString m (KInt n) = (Sprintf_d n, None) /\
  Atoi (fst (keyToString m (KInt n))) = Some n /\
  unpadded (fst (keyToString m (KInt n))) = true /\
  snd (keyToString m (KInt n)) <> Some (errors_New "key err: unsupported type").
Proof.
  simpl. repeat split; auto using Atoi_Sprintf_d, Sprintf_d_unpadded.
Qed.

End KeyCodec.

Lemma keyToString_canonical_witness :
  keyToString fx_cache (KInt32 42) = ("42", None) /\
  keyToString fx_cache (KUint64 42) = keyToString fx_cache (KInt32 42) /\
  keyToString fx_cache (KString "42") = keyToString fx_cache (KInt32 42).
Proof.
  destruct (keyToString_canonical fx_cache (KInt32 42) (KUint64 42) 42 "42"
              eq_refl eq_refl) as (H1 & H2 & _ & _ & _ & H6).
  exact (conj H1 (conj H2 H6)).
Defined.

(** C7, as the spec words it: the text key ["42"] is said not to be
    equivalent to [int32(42)].  Both get the canonical text ["42"]. *)
Lemma keyToString_text_collides :
  ~ (keyToString fx_cache (KString "42") <> keyToString fx_cache (KInt32 42)).
Proof. intros H. apply H. reflexivity. Qed.

(** ** The cache over any store client *)

Section AnyStore.
Context {V : Type} `{!Codec V} {St : Type} `{!Client St}.
Implicit Types (m : Cache V) (key : Key) (value : V) (w : World St).

Lemma count_app (p : Event -> bool) (l1 l2 : list Event) :
  count p (l1 ++ l2) = (count p l1 + count p l2)%nat.
Proof. unfold count. rewrite filter_app, length_app. reflexivity. Qed.

Lemma count_cons (p : Event -> bool) (ev : Event) (l : list Event) :
  count p (ev :: l) = ((if p ev then 1 else 0) + count p l)%nat.
Proof.
  unfold count. rewrite filter_cons.
  destruct (p ev); destruct (decide _); simpl; congruence.
Qed.

Lemma count_nil (p : Event -> bool) : count p [] = 0%nat.
Proof. reflexivity. Qed.

(** The first read of [Get]. *)
Lemma getValueFromCache_read m key value w skey :
  fixKey m key = (skey, None) ->
  GetInstance (store w) (namespace m) = true ->
  getValueFromCache m key value w =
    let '(s', r) := client_Get (store w) skey in
    let w' := Build_World s' (calls w ++ [EvGet skey]) in
    match r with
    | Fail err => ((value, Some err), w')
    | Ok data => (Unmarshal data value, w')
    end.
Proof.
  intros Hk Hi. unfold getValueFromCache. rewrite Hk.
  unfold bind, instance, redis_Get, ret. rewrite Hi. simpl.
  destruct (client_Get (store w) skey) as [s' [data|err]]; reflexivity.
Qed.

(** What the load step does: one call of the loader, one [Set] of
    [entry_of] under the configured TTL, and the result of that [Set] as
    its own result, whatever the loader or the encoder returned. *)
Lemma loadValueToCache_run m key w skey :
  fixKey m key = (skey, None) ->
  GetInstance (store w) (namespace m) = true ->
  loadValueToCache m key w =
    let '(s', rerr) := client_Set (store w) skey (entry_of m key) (expire m) in
    (rerr, Build_World s' (calls w ++ [EvLoad key; EvSet skey (entry_of m key) (expire m)])).
Proof.
  intros Hk Hi. unfold loadValueToCache, bind, call_load, entry_of.
  destruct (load m key) as [v|e]; [destruct (Marshal v) as [d|e]|];
    rewrite Hk; unfold bind, instance, redis_Set, ret; simpl;
    rewrite Hi; simpl;
    destruct (client_Set (store w) skey _ (expire m)) as [s' rerr];
    rewrite <- app_assoc; reflexivity.
Qed.

(** [Get] on a miss: the load step, then, unless the [Set] failed, a
    second read whose result is the result of [Get]. *)
Lemma Get_miss m key value w skey s1 e0 :
  fixKey m key = (skey, None) ->
  GetInstance (store w) (namespace m) = true ->
  client_Get (store w) skey = (s1, Fail e0) ->
  Error e0 = RedisNil ->
  Get m key value w =
    let '(err, w2) := loadValueToCache m key (Build_World s1 (calls w ++ [EvGet skey])) in
    match err with
    | Some err => ((value, Some err), w2)
    | None => getValueFromCache m key value w2
    end.
Proof.
  intros Hk Hi Hg Hnil. unfold Get. unfold bind at 1.
  rewrite (getValueFromCache_read m key value w skey Hk Hi), Hg. simpl.
  rewrite Hnil, String.eqb_refl. simpl. unfold bind.
  destruct (loadValueToCache m key _) as [[e|] w2]; reflexivity.
Qed.

(** C3.  When the key is well formed, the namespace has an instance and
    the first read of the store fails with an error whose text is not
    the not-found text, [Get] returns an error built from it, leaves the
    slot as it was, and has called the store once, for that read: the
    loader is not invoked and nothing is written. *)
Theorem Get_read_failure_is_fatal m key value w skey s' e :
  fixKey m key = (skey, None) ->
  GetInstance (store w) (namespace m) = true ->
  client_Get (store w) skey = (s', Fail e) ->
  Error e <> RedisNil ->
  Get m key value w =
    ((value, Some (Get_err key e)), Build_World s' (calls w ++ [EvGet skey])) /\
  count is_load (calls (snd (Get m key value w))) = count is_load (calls w) /\
  count is_set (calls (snd (Get m key value w))) = count is_set (calls w).
Proof.
  intros Hk Hi Hg Hne.
  assert (E : Get m key value w =
    ((value, Some (Get_err key e)), Build_World s' (calls w ++ [EvGet skey]))).
  { unfold Get. unfold bind at 1.
    rewrite (getValueFromCache_read m key value w skey Hk Hi), Hg. simpl.
    apply String.eqb_neq in Hne. rewrite Hne. reflexivity. }
  rewrite E. simpl. rewrite !count_app, !count_cons, !count_nil. simpl.
  split; [reflexivity|]. lia.
Qed.

End AnyStore.

Lemma Get_read_failure_is_fatal_witness :
  Get fx_cache (KInt 42) VChan (Build_World fx_store_down []) =
    ((VChan, Some (Get_err (KInt 42) (errors_New "dial tcp: connection refused"))),
     Build_World fx_store_down [EvGet "ord.42"]).
Proof.
  apply (Get_read_failure_is_fatal fx_cache (KInt 42) VChan (Build_World fx_store_down [])
           "ord.42" fx_store_down (errors_New "dial tcp: connection refused")).
  - reflexivity.
  - reflexivity.
  - reflexivity.
  - simpl. discriminate.
Defined.

Section AnyStoreMiss.
Context {V : Type} `{!Codec V} {St : Type} `{!Client St}.
Implicit Types (m : Cache V) (key : Key) (value : V) (w : World St).

(** On a miss whose [Set] succeeds, [Get] is the second read of the
    store, whether the loader and the encoder succeeded or not: the entry
    written is [entry_of], and the error of the load step is not looked
    at again. *)
Lemma Get_miss_reread m key value w skey s1 e0 s2 :
  fixKey m key = (skey, None) ->
  GetInstance (store w) (namespace m) = true ->
  client_Get (store w) skey = (s1, Fail e0) ->
  Error e0 = RedisNil ->
  GetInstance s1 (namespace m) = true ->
  client_Set s1 skey (entry_of m key) (expire m) = (s2, None) ->
  Get m key value w =
    getValueFromCache m key value
      (Build_World s2 (calls w ++ [EvGet skey; EvLoad key;
                                    EvSet skey (entry_of m key) (expire m)])).
Proof.
  intros Hk Hi Hg Hnil Hi1 Hs.
  rewrite (Get_miss m key value w skey s1 e0 Hk Hi Hg Hnil).
  rewrite (loadValueToCache_run m key (Build_World s1 (calls w ++ [EvGet skey])) skey Hk Hi1). simpl.
  rewrite Hs. rewrite <- app_assoc. reflexivity.
Qed.

(** On a miss whose [Set] fails, [Get] returns the error of the [Set]. *)
Lemma Get_miss_set_failed m key value w skey s1 e0 s2 rerr :
  fixKey m key = (skey, None) ->
  GetInstance (store w) (namespace m) = true ->
  client_Get (store w) skey = (s1, Fail e0) ->
  Error e0 = RedisNil ->
  GetInstance s1 (namespace m) = true ->
  client_Set s1 skey (entry_of m key) (expire m) = (s2, Some rerr) ->
  fst (Get m key value w) = (value, Some rerr).
Proof.
  intros Hk Hi Hg Hnil Hi1 Hs.
  rewrite (Get_miss m key value w skey s1 e0 Hk Hi Hg Hnil).
  rewrite (loadValueToCache_run m key (Build_World s1 (calls w ++ [EvGet skey])) skey Hk Hi1). simpl.
  rewrite Hs. reflexivity.
Qed.

(** The error of the load step never is the result of the load step: with
    a [Set] that succeeds the step reports success. *)
Lemma loadValueToCache_drops_load_err m key w skey s2 (E : error) :
  fixKey m key = (skey, None) ->
  GetInstance (store w) (namespace m) = true ->
  client_Set (store w) skey (entry_of m key) (expire m) = (s2, None) ->
  load_err m key = Some E ->
  fst (loadValueToCache m key w) = None.
Proof.
  intros Hk Hi Hs _.
  rewrite (loadValueToCache_run m key w skey Hk Hi), Hs. reflexivity.
Qed.

(** A read that finds an entry: [Get] makes no other call, provided the
    decoder does not fail with the not-found text. *)
Lemma Get_found m key value w skey s1 data :
  fixKey m key = (skey, None) ->
  GetInstance (store w) (namespace m) = true ->
  client_Get (store w) skey = (s1, Ok data) ->
  (forall e, snd (Unmarshal data value) = Some e -> Error e <> RedisNil) ->
  snd (Get m key value w) = Build_World s1 (calls w ++ [EvGet skey]) /\
  fst (fst (Get m key value w)) = fst (Unmarshal data value).
Proof.
  intros Hk Hi Hg Hu.
  assert (E : exists err,
    Get m key value w =
      ((fst (Unmarshal data value), err), Build_World s1 (calls w ++ [EvGet skey]))).
  { unfold Get. unfold bind at 1.
    rewrite (getValueFromCache_read m key value w skey Hk Hi), Hg.
    destruct (Unmarshal data value) as [v' [e|]] eqn:Eu; simpl; [|eexists; reflexivity].
    specialize (Hu e eq_refl). apply String.eqb_neq in Hu.
    rewrite Hu. eexists; reflexivity. }
  destruct E as [err ->]. split; reflexivity.
Qed.

End AnyStoreMiss.

(** ** The cache over the in-memory store *)

Section OverMemStore.
Context {V : Type} `{!Codec V}.
Implicit Types (m : Cache V) (key : Key) (value : V) (s : MemStore).

Lemma ms_get_live s skey data deadline :
  ms_outage s = None ->
  ms_entries s !! skey = Some (data, deadline) ->
  ms_now s < deadline ->
  ms_get s skey = (s, Ok data).
Proof.
  intros Ho He Hl. unfold ms_get. rewrite Ho, He.
  destruct (Z.ltb_spec (ms_now s) deadline); [reflexivity | lia].
Qed.

Lemma ms_get_state s skey : fst (ms_get s skey) = s.
Proof.
  unfold ms_get. destruct (ms_outage s); [reflexivity|].
  destruct (ms_entries s !! skey) as [[d t]|]; [|reflexivity].
  destruct (ms_now s <? t)%Z; reflexivity.
Qed.

(** A read of a live entry: [Get] returns what the decoder makes of it,
    or the error built from the decoder's, and calls nothing else. *)
Lemma Get_live m key value (w : World MemStore) skey data deadline :
  fixKey m key = (skey, None) ->
  ms_outage (store w) = None ->
  namespace m ∈ ms_instances (store w) ->
  ms_entries (store w) !! skey = Some (data, deadline) ->
  ms_now (store w) < deadline ->
  (forall e, snd (Unmarshal data value) = Some e -> Error e <> ms_nil) ->
  calls (snd (Get m key value w)) = (calls w ++ [EvGet skey])%list.
Proof.
  intros Hk Ho Hi He Hl Hu.
  assert (Hi' : GetInstance (store w) (namespace m) = true)
    by (simpl; apply bool_decide_eq_true; exact Hi).
  destruct (Get_found m key value w skey (store w) data Hk Hi'
              (ms_get_live _ _ _ _ Ho He Hl) Hu) as [-> _].
  reflexivity.
Qed.

(** C4.  Over a store that is up and keeps an entry until its TTL has
    elapsed: when the first [Get] of a key misses and the loader fails
    with [E], that [Get] calls the loader once and leaves the text of [E]
    under the canonical key; a second [Get] of the key, [dt] later with
    [dt] below the TTL, does not call the loader.  The decoder is taken
    not to fail with the not-found text of the store. *)
Theorem Get_negative_caching m key skey (E : error) (w : World MemStore)
    (v1 v2 : V) (dt : Z) :
  fixKey m key = (skey, None) ->
  load m key = Fail E ->
  ms_outage (store w) = None ->
  namespace m ∈ ms_instances (store w) ->
  snd (ms_get (store w) skey) = Fail (errors_New ms_nil) ->
  0 <= dt < expire m ->
  (forall slot e, snd (Unmarshal (bytes_of (Error E)) slot) = Some e ->
                  Error e <> ms_nil) ->
  let w1 := snd (Get m key v1 w) in
  let w2 := snd (Get m key v2 (Build_World (ms_elapse dt (store w1)) (calls w1))) in
  count is_load (calls w1) = S (count is_load (calls w)) /\
  ms_entries (store w1) !! skey = Some (bytes_of (Error E), ms_now (store w) + expire m) /\
  count is_load (calls w2) = count is_load (calls w1).
Proof.
  intros Hk Hl Ho Hi Hmiss Hdt Hu.
  assert (Hi' : GetInstance (store w) (namespace m) = true)
    by (simpl; apply bool_decide_eq_true; exact Hi).
  assert (Hg : client_Get (store w) skey = (store w, Fail (errors_New ms_nil))).
  { change (client_Get (store w) skey) with (ms_get (store w) skey).
    rewrite (surjective_pairing (ms_get (store w) skey)), ms_get_state, Hmiss.
    reflexivity. }
  assert (Hent : entry_of m key = bytes_of (Error E))
    by (unfold entry_of; rewrite Hl; reflexivity).
  set (s2 := {| ms_entries := <[skey := (bytes_of (Error E), ms_now (store w) + expire m)]>
                                 (ms_entries (store w));
                ms_now := ms_now (store w);
                ms_instances := ms_instances (store w);
                ms_outage := None |}).
  assert (Hs : client_Set (store w) skey (entry_of m key) (expire m) = (s2, None)).
  { rewrite Hent. change (ms_set (store w) skey (bytes_of (Error E)) (expire m) = (s2, None)).
    unfold ms_set. rewrite Ho. reflexivity. }
  pose proof (Get_miss_reread m key v1 w skey (store w) _ s2 Hk Hi' Hg eq_refl Hi' Hs) as HG.
  set (w' := Build_World s2 _) in HG.
  assert (Hi2 : GetInstance (store w') (namespace m) = true) by exact Hi'.
  rewrite (getValueFromCache_read m key v1 w' skey Hk Hi2) in HG.
  change (client_Get (store w') skey) with (ms_get s2 skey) in HG.
  assert (He2 : ms_entries s2 !! skey = Some (bytes_of (Error E), ms_now (store w) + expire m))
    by (simpl; apply lookup_insert_eq).
  rewrite (ms_get_live s2 skey _ _ eq_refl He2) in HG by (simpl; lia).
  cbv zeta. rewrite HG. simpl.
  split; [|split].
  - rewrite !count_app, !count_cons, !count_nil. simpl. lia.
  - exact He2.
  - rewrite (Get_live m key v2 _ skey (bytes_of (Error E)) (ms_now (store w) + expire m)).
    + simpl. rewrite !count_app, !count_cons, !count_nil. simpl. lia.
    + exact Hk.
    + reflexivity.
    + exact Hi.
    + exact He2.
    + simpl. lia.
    + apply Hu.
Qed.

End OverMemStore.

Lemma Get_negative_caching_witness :
  let w1 := snd (Get fx_cache (KInt 13) VChan fx_world) in
  let w2 := snd (Get fx_cache (KInt 13) VChan
                   (Build_World (ms_elapse 1000000000 (store w1)) (calls w1))) in
  count is_load (calls w1) = 1%nat /\
  ms_entries (store w1) !! "ord.13" = Some (bytes_of "boom", 5000000000) /\
  count is_load (calls w2) = count is_load (calls w1).
Proof.
  refine (Get_negative_caching fx_cache (KInt 13) "ord.13" (errors_New "boom")
            fx_world VChan VChan 1000000000 eq_refl eq_refl eq_refl _ eq_refl _ _).
  - vm_compute. constructor.
  - change (0 <= 1000000000 < 5000000000). lia.
  - intros slot e H. vm_compute in H. injection H as <-. discriminate.
Defined.

(** ** The load step loses its error *)

(** C1, at a loader that fails with [boom] on a cold cache.  The text of
    the error is stored under the canonical key with the configured TTL;
    then the store is read again, and what [Get] returns is the decoder's
    complaint about the stored text, not the loader's error. *)
Theorem Get_loader_error_is_reread :
  key_wf (KInt 13) /\
  load fx_cache (KInt 13) = Fail (errors_New "boom") /\
  calls (snd (Get fx_cache (KInt 13) VChan fx_world)) =
    [EvGet "ord.13"; EvLoad (KInt 13);
     EvSet "ord.13" (bytes_of "boom") (expire fx_cache); EvGet "ord.13"] /\
  snd (fst (Get fx_cache (KInt 13) VChan fx_world)) =
    Some (errors_New "json: invalid character looking for beginning of value") /\
  snd (fst (Get fx_cache (KInt 13) VChan fx_world)) <> Some (errors_New "boom").
Proof.
  split; [unfold key_wf, int_range; lia|].
  vm_compute. repeat split; try reflexivity. discriminate.
Qed.

(** The same, at a loader error whose text decodes: [Get] reports success
    and fills the slot from the text of the error. *)
Example Get_loader_error_decodes :
  load fx_cache (KInt 404) = Fail (errors_New "404") /\
  fst (Get fx_cache (KInt 404) VChan fx_world) = (VInt 404, None).
Proof. vm_compute. split; reflexivity. Qed.

(** C2, at a loader whose value does not encode.  The text of the
    encoder's error is stored; then the store is read again and decoded,
    and [Get] returns the decoder's error, not the encoder's. *)
Theorem Get_encode_error_is_reread :
  key_wf (KInt 7) /\
  load fx_cache (KInt 7) = Ok VChan /\
  Marshal VChan = Fail (errors_New "json: unsupported type: chan int") /\
  calls (snd (Get fx_cache (KInt 7) VChan fx_world)) =
    [EvGet "ord.7"; EvLoad (KInt 7);
     EvSet "ord.7" (bytes_of "json: unsupported type: chan int") (expire fx_cache);
     EvGet "ord.7"] /\
  snd (fst (Get fx_cache (KInt 7) VChan fx_world)) =
    Some (errors_New "json: invalid character looking for beginning of value") /\
  snd (fst (Get fx_cache (KInt 7) VChan fx_world)) <>
    Some (errors_New "json: unsupported type: chan int").
Proof.
  split; [unfold key_wf, int_range; lia|].
  vm_compute. repeat split; try reflexivity. discriminate.
Qed.

(** ** The context of a log line *)

Section LogContext.
Implicit Types (ctx : Context) (fullHead : bool).

Lemma extractTraceID_cases ctx :
  extractTraceID ctx =
    match SpanFromContext ctx with
    | Some {| SpanCtx := JaegerSpanContext t _ |} =>
        (None, {[ contextKeyTraceID := AnyTraceID t ]})
    | _ => (Some ErrorTraceIDNotFound, ∅)
    end.
Proof.
  unfold extractTraceID. destruct (SpanFromContext ctx) as [[op opts [t i|n]]|]; reflexivity.
Qed.

(** C6, as the code has it.  For a context that is not nil the result
    has two elements, in this order: the trace component, which is
    [emptyTrace] when no trace identifier can be extracted, and the head
    component, which is [emptyHead] when no head can be extracted.  For
    the nil context the result is empty.  No error is returned in either
    case. *)
Theorem extractContext_components ctx fullHead :
  extractContext (Some ctx) fullHead =
    [ match extractTraceID ctx with
      | (None, ckv) => ckv
      | (Some _, _) => emptyTrace
      end;
      match extractHead ctx fullHead with
      | (None, ckv) => ckv
      | (Some _, _) => emptyHead
      end ] /\
  length (extractContext (Some ctx) fullHead) = 2%nat /\
  extractContext None fullHead = [].
Proof.
  unfold extractContext.
  destruct (extractTraceID ctx) as [[e|] t]; destruct (extractHead ctx fullHead) as [[e'|] h];
    repeat split; reflexivity.
Qed.

(** The placeholders at work: a context without span and head. *)
Example extractContext_Background fullHead :
  extractContext (Some Background) fullHead = [emptyTrace; emptyHead].
Proof. reflexivity. Qed.

End LogContext.

(** C6, as the spec words it: a two-element result for every context.
    The nil context gets the empty result. *)
Lemma extractContext_nil_context :
  extractContext None true = [] /\ length (extractContext None true) <> 2%nat.
Proof. split; [reflexivity | discriminate]. Qed.

(** ** Message payloads *)

Section Payloads.
Context {V : Type} {codec : Codec V} {tracer : Tracer}.
Implicit Types (ctx : Context) (payload : Payload) (opName : string) (value : V).

Lemma generatePayload_ok ctx value data :
  Marshal value = Ok data ->
  generatePayload ctx value =
    (Some {| Carrier := inject_span ctx; Value := string_of data; Head := ValueHead ctx |},
     None).
Proof. intros H. unfold generatePayload. rewrite H. reflexivity. Qed.

Lemma generatePayload_fails ctx value err :
  Marshal value = Fail err -> generatePayload ctx value = (None, Some err).
Proof. intros H. unfold generatePayload. rewrite H. reflexivity. Qed.


(** C8.  The error [parsePayload] returns is the decoder's and no other:
    a carrier from which no span context can be extracted only changes
    the span, started without reference (a root span) instead of as the
    server side of the extracted one.  When the decoder fails, that error
    is returned and no context; otherwise the context carries the span
    and the head of the envelope. *)
Theorem parsePayload_errors payload opName value (out : V) (derr : option error) :
  Unmarshal (bytes_of (Value payload)) value = (out, derr) ->
  snd (parsePayload payload opName value) = out /\
  snd (fst (parsePayload payload opName value)) = derr /\
  fst (fst (parsePayload payload opName value)) =
    match derr with
    | Some _ => None
    | None =>
        Some {| SpanFromContext :=
                  Some match Extract (Carrier payload) with
                       | Ok spanCtx => StartSpan opName [RPCServerOption spanCtx]
                       | Fail _ => StartSpan opName []
                       end;
                ValueHead := Head payload |}
    end.
Proof.
  intros Hu. unfold parsePayload. rewrite Hu.
  destruct derr; repeat split.
Qed.

Lemma range_msgs_keys {K : Type} carrier head (msgs : list (Message K V))
    (acc nmsgs : list (Message K Payload)) :
  range_msgs carrier head msgs acc = (Some nmsgs, None) ->
  map MsgKey nmsgs = (map MsgKey acc ++ map MsgKey msgs)%list.
Proof.
  revert acc. induction msgs as [|msg msgs IH]; intros acc; simpl.
  - intros [= <-]. rewrite app_nil_r. reflexivity.
  - destruct (Marshal (MsgValue msg)) as [body|err]; [|discriminate].
    intros H. rewrite (IH _ H), map_app, <- app_assoc. reflexivity.
Qed.

(** C9.  When [generateMsgsPayload] succeeds, the keys of the messages it
    returns are the keys of the messages it was given, one for one and
    in the same order; so the two batches have the same length. *)
Theorem generateMsgsPayload_keys {K : Type} ctx (msgs : list (Message K V))
    (nmsgs : list (Message K Payload)) :
  generateMsgsPayload ctx msgs = (Some nmsgs, None) ->
  map MsgKey nmsgs = map MsgKey msgs /\
  length nmsgs = length msgs /\
  (forall i : nat, MsgKey <$> (nmsgs !! i) = MsgKey <$> (msgs !! i)).
Proof.
  intros H. unfold generateMsgsPayload in H.
  apply range_msgs_keys in H. simpl in H.
  split; [exact H|]. split.
  - rewrite <- (length_map MsgKey nmsgs), H. apply length_map.
  - intros i. rewrite <- !list_lookup_fmap.
    change (map MsgKey nmsgs !! i = map MsgKey msgs !! i). rewrite H. reflexivity.
Qed.

End Payloads.



Lemma parsePayload_errors_witness :
  snd (fst (parsePayload {| Carrier := ∅; Value := "boom"; Head := HeadNil |} "consume" VChan)) =
    Some (errors_New "json: invalid character looking for beginning of value") /\
  fst (fst (parsePayload {| Carrier := ∅; Value := "boom"; Head := HeadNil |} "consume" VChan)) =
    None.
Proof.
  assert (Hu : Unmarshal (bytes_of "boom") VChan =
               (VChan, Some (errors_New "json: invalid character looking for beginning of value")))
    by reflexivity.
  destruct (parsePayload_errors {| Carrier := ∅; Value := "boom"; Head := HeadNil |}
              "consume" VChan VChan _ Hu) as (_ & He & Hc).
  exact (conj He Hc).
Defined.

(** An empty carrier and a value that decodes: a root span, no error. *)
Example parsePayload_empty_carrier :
  parsePayload {| Carrier := ∅; Value := "42"; Head := HeadNil |} "consume" VChan =
    ((Some {| SpanFromContext := Some (StartSpan "consume" []); ValueHead := HeadNil |}, None),
     VInt 42) /\
  is_root (StartSpan "consume" []) = true.
Proof. split; reflexivity. Qed.

Lemma generateMsgsPayload_keys_witness :
  exists nmsgs,
    generateMsgsPayload Background
      [Build_Message "a" (VInt 1); Build_Message "b" (VInt 2)] = (Some nmsgs, None) /\
    map MsgKey nmsgs = ["a"; "b"].
Proof.
  eexists. split; [reflexivity|].
  apply (generateMsgsPayload_keys Background
           [Build_Message "a" (VInt 1); Build_Message "b" (VInt 2)]).
  reflexivity.
Defined.


(** ** The calls [Get] and [Del] make *)

Section CacheCalls.
Context {V : Type} {codec : Codec V} {St : Type} {client : Client St}.
Implicit Types (m : Cache V) (key : Key) (value : V) (w : World St).

Lemma getValueFromCache_trace m key value w :
  exists a : bool,
    calls (snd (getValueFromCache m key value w)) =
      (calls w ++ (if a then [EvGet (fst (fixKey m key))] else []))%list /\
    (snd (fixKey m key) = None \/ a = false).
Proof.
  unfold getValueFromCache.
  destruct (fixKey m key) as [skey [e|]]; simpl.
  - exists false. rewrite app_nil_r. auto.
  - unfold bind, instance, redis_Get, ret.
    destruct (GetInstance (store w) (namespace m)); simpl.
    + exists true. destruct (client_Get (store w) skey) as [s' [d|e]]; simpl; auto.
    + exists false. rewrite app_nil_r. auto.
Qed.

(** The load step calls the loader, then at most the [Set]; it returns nil
    only after the [Set]. *)
Lemma loadValueToCache_trace m key w :
  exists c : bool,
    calls (snd (loadValueToCache m key w)) =
      (calls w ++ [EvLoad key] ++
       (if c then [EvSet (fst (fixKey m key)) (entry_of m key) (expire m)] else []))%list /\
    (snd (fixKey m key) = None \/ c = false) /\
    (c = true \/ fst (loadValueToCache m key w) <> None).
Proof.
  unfold loadValueToCache, entry_of, bind, call_load.
  destruct (load m key) as [v|e]; [destruct (Marshal v) as [d|e]|];
    (destruct (fixKey m key) as [skey [e'|]]; simpl;
     [exists false; repeat split; auto; right; discriminate|]);
    unfold bind, instance, redis_Set, ret; simpl;
    (destruct (GetInstance (store w) (namespace m)); simpl;
     [|exists false; repeat split; auto; right; discriminate]);
    (destruct (client_Set (store w) skey _ (expire m)) as [s' rerr]; simpl);
    exists true; rewrite <- app_assoc; simpl; auto.
Qed.

(** X1.  Whatever the store, the loader and the codec do, the calls one
    [Get] adds to the trace are, in this order: at most one read of the
    canonical key, at most one call of the loader, at most one [Set] of
    the canonical key with the bytes of [entry_of] and the configured TTL,
    at most one more read.  The [Set] comes only after the loader was
    called, the second read only after the [Set], and with a key of an
    unsupported kind the store is neither read nor written.  So the loader
    is never retried and nothing is deleted. *)
Theorem Get_calls m key value w :
  exists a b c d : bool,
    calls (snd (Get m key value w)) =
      (calls w ++
       (if a then [EvGet (fst (fixKey m key))] else []) ++
       (if b then [EvLoad key] else []) ++
       (if c then [EvSet (fst (fixKey m key)) (entry_of m key) (expire m)] else []) ++
       (if d then [EvGet (fst (fixKey m key))] else []))%list /\
    implb c b = true /\
    implb d c = true /\
    (snd (fixKey m key) = None \/ (a = false /\ c = false)).
Proof.
  unfold Get. unfold bind at 1.
  destruct (getValueFromCache m key value w) as [[v1 err1] w1] eqn:E1.
  destruct (getValueFromCache_trace m key value w) as (a & Hc1 & Ha).
  rewrite E1 in Hc1. simpl in Hc1.
  assert (Hstop : exists a b c d : bool,
    calls w1 =
      (calls w ++
       (if a then [EvGet (fst (fixKey m key))] else []) ++
       (if b then [EvLoad key] else []) ++
       (if c then [EvSet (fst (fixKey m key)) (entry_of m key) (expire m)] else []) ++
       (if d then [EvGet (fst (fixKey m key))] else []))%list /\
    implb c b = true /\ implb d c = true /\
    (snd (fixKey m key) = None \/ (a = false /\ c = false))).
  { exists a, false, false, false. rewrite Hc1, !app_nil_r.
    repeat split. destruct Ha; auto. }
  destruct err1 as [e1|]; simpl; [|exact Hstop].
  destruct (negb (Error e1 =? RedisNil)); simpl; [exact Hstop|]. clear Hstop.
  unfold bind.
  destruct (loadValueToCache m key w1) as [err2 w2] eqn:E2.
  destruct (loadValueToCache_trace m key w1) as (c & Hc2 & Hc & Hnil).
  rewrite E2 in Hc2, Hnil. simpl in Hc2, Hnil.
  destruct err2 as [e2|]; simpl.
  - exists a, true, c, false. rewrite Hc2, Hc1, app_nil_r, <- !app_assoc.
    repeat split; [destruct c; reflexivity|].
    destruct Ha as [Ha|Ha]; [auto|]. destruct Hc as [Hc|Hc]; auto.
  - destruct Hnil as [->|Hnil]; [|contradiction Hnil; reflexivity].
    destruct (getValueFromCache_trace m key v1 w2) as (d & Hc3 & Hd).
    exists a, true, true, d. rewrite Hc3, Hc2, Hc1, <- !app_assoc.
    repeat split; [destruct d; reflexivity|].
    destruct Hc as [Hc|Hc]; [auto | discriminate Hc].
Qed.

Lemma Get_found_entry m key value w skey s1 (data : list Byte.byte) (v' : V)
    (derr : option error) :
  fixKey m key = (skey, None) ->
  GetInstance (store w) (namespace m) = true ->
  client_Get (store w) skey = (s1, Ok data) ->
  Unmarshal data value = (v', derr) ->
  (forall e, derr = Some e -> Error e <> RedisNil) ->
  Get m key value w =
    ((v', match derr with Some e => Some (Get_err key e) | None => None end),
     Build_World s1 (calls w ++ [EvGet skey])).
Proof.
  intros Hk Hi Hg Hu Hne. unfold Get. unfold bind at 1.
  rewrite (getValueFromCache_read m key value w skey Hk Hi), Hg, Hu.
  destruct derr as [e|]; simpl; [|reflexivity].
  specialize (Hne e eq_refl). apply String.eqb_neq in Hne.
  rewrite Hne. reflexivity.
Qed.

(** X2.  A read that finds an entry decides [Get]: the slot is what the
    decoder left in it, the result is nil when the decoder succeeded and
    the error built from the decoder's otherwise, and the read is the only
    call.  The decoder is taken not to fail with the not-found text. *)
Theorem Get_hit m key value w skey s1 (data : list Byte.byte) (v' : V)
    (derr : option error) :
  fixKey m key = (skey, None) ->
  GetInstance (store w) (namespace m) = true ->
  client_Get (store w) skey = (s1, Ok data) ->
  Unmarshal data value = (v', derr) ->
  (forall e, derr = Some e -> Error e <> RedisNil) ->
  Get m key value w =
    ((v', match derr with Some e => Some (Get_err key e) | None => None end),
     Build_World s1 (calls w ++ [EvGet skey])).
Proof. exact (Get_found_entry m key value w skey s1 data v' derr). Qed.

(** X3.  A key of an unsupported kind: [Get] returns the error built from
    the key error and calls neither the store nor the loader.  The
    not-found text of the store is taken to differ from the text of the
    key error. *)
Theorem Get_unsupported_key m (repr : string) value w :
  RedisNil <> "key err: unsupported type" ->
  Get m (KOther repr) value w =
    ((value, Some (Get_err (KOther repr) (errors_New "key err: unsupported type"))), w).
Proof.
  intros Hne.
  assert (E : (Error (errors_New "key err: unsupported type") =? RedisNil) = false)
    by (apply String.eqb_neq; simpl; congruence).
  assert (Hg : getValueFromCache m (KOther repr) value w =
               ((value, Some (errors_New "key err: unsupported type")), w))
    by reflexivity.
  unfold Get, bind. rewrite Hg. cbv beta iota. rewrite E. reflexivity.
Qed.

(** X4.  No instance for the namespace: [Get] returns the error built from
    the instance error and calls neither the store nor the loader.  The
    not-found text of the store is taken to differ from the text of the
    instance error. *)
Theorem Get_no_instance m key value w skey :
  fixKey m key = (skey, None) ->
  GetInstance (store w) (namespace m) = false ->
  RedisNil <> Error (instance_err (namespace m)) ->
  Get m key value w =
    ((value, Some (Get_err key (instance_err (namespace m)))), w).
Proof.
  intros Hk Hi Hne.
  assert (E : (Error (instance_err (namespace m)) =? RedisNil) = false)
    by (apply String.eqb_neq; congruence).
  assert (Hg : getValueFromCache m key value w =
               ((value, Some (instance_err (namespace m))), w)).
  { unfold getValueFromCache. rewrite Hk. unfold bind, instance. rewrite Hi.
    reflexivity. }
  unfold Get, bind. rewrite Hg. cbv beta iota. rewrite E. reflexivity.
Qed.

(** X5.  A miss whose [Set] fails: [Get] returns the error of the [Set] as
    it is, whatever the loader returned, and does not read the store
    again. *)
Theorem Get_miss_set_error m key value w skey s1 e0 s2 (rerr : error) :
  fixKey m key = (skey, None) ->
  GetInstance (store w) (namespace m) = true ->
  client_Get (store w) skey = (s1, Fail e0) ->
  Error e0 = RedisNil ->
  GetInstance s1 (namespace m) = true ->
  client_Set s1 skey (entry_of m key) (expire m) = (s2, Some rerr) ->
  Get m key value w =
    ((value, Some rerr),
     Build_World s2 (calls w ++ [EvGet skey; EvLoad key;
                                  EvSet skey (entry_of m key) (expire m)])).
Proof.
  intros Hk Hi Hg Hnil Hi1 Hs.
  rewrite (Get_miss m key value w skey s1 e0 Hk Hi Hg Hnil).
  rewrite (loadValueToCache_run m key (Build_World s1 (calls w ++ [EvGet skey])) skey Hk Hi1).
  simpl. rewrite Hs. rewrite <- app_assoc. reflexivity.
Qed.

(** X6.  A miss whose [Set] succeeds and whose second read fails: [Get]
    returns the error of that read as it is, not wrapped like the error of
    a first read, and also when it is the not-found error itself. *)
Theorem Get_miss_second_read_error m key value w skey s1 e0 s2 s3 (e2 : error) :
  fixKey m key = (skey, None) ->
  GetInstance (store w) (namespace m) = true ->
  client_Get (store w) skey = (s1, Fail e0) ->
  Error e0 = RedisNil ->
  GetInstance s1 (namespace m) = true ->
  client_Set s1 skey (entry_of m key) (expire m) = (s2, None) ->
  GetInstance s2 (namespace m) = true ->
  client_Get s2 skey = (s3, Fail e2) ->
  Get m key value w =
    ((value, Some e2),
     Build_World s3 (calls w ++ [EvGet skey; EvLoad key;
                                  EvSet skey (entry_of m key) (expire m);
                                  EvGet skey])).
Proof.
  intros Hk Hi Hg Hnil Hi1 Hs Hi2 Hg2.
  rewrite (Get_miss_reread m key value w skey s1 e0 s2 Hk Hi Hg Hnil Hi1 Hs).
  rewrite (getValueFromCache_read m key value (Build_World s2 _) skey Hk Hi2).
  simpl. rewrite Hg2. rewrite <- app_assoc. reflexivity.
Qed.

(** X7.  When [Del] returns nil, the key is of a supported kind, the
    store's [Del] of the canonical key was called and succeeded, and that
    is the only call [Del] made. *)
Theorem Del_success m key w :
  fst (Del m key w) = None ->
  exists skey,
    fixKey m key = (skey, None) /\
    GetInstance (store w) (namespace m) = true /\
    snd (client_Del (store w) skey) = None /\
    snd (Del m key w) =
      Build_World (fst (client_Del (store w) skey)) (calls w ++ [EvDel skey]).
Proof.
  unfold Del. destruct (fixKey m key) as [skey [e|]]; simpl; [discriminate|].
  unfold bind, instance, redis_Del, ret.
  destruct (GetInstance (store w) (namespace m)); simpl; [|discriminate].
  destruct (client_Del (store w) skey) as [s' [e|]] eqn:Hd; simpl; [discriminate|].
  intros _. exists skey. rewrite Hd. repeat split.
Qed.

(** X8.  When [Del] fails it has made no call but, at most, the one [Del]
    of the store: it never reads, writes or loads.  The error of a store
    failure names the key and carries the text of the store's error. *)
Theorem Del_failure m key w (err : error) :
  fst (Del m key w) = Some err ->
  (snd (Del m key w) = w /\
   (snd (fixKey m key) = Some err \/ err = instance_err (namespace m))) \/
  (exists skey e,
     fixKey m key = (skey, None) /\
     snd (client_Del (store w) skey) = Some e /\
     err = errors_New ("del cache key: " +:+ Sprintf_v key +:+ " err: " +:+ Error e) /\
     calls (snd (Del m key w)) = (calls w ++ [EvDel skey])%list).
Proof.
  unfold Del. destruct (fixKey m key) as [skey [e|]]; simpl.
  - intros [= <-]. left. auto.
  - unfold bind, instance, redis_Del, ret.
    destruct (GetInstance (store w) (namespace m)); simpl.
    + destruct (client_Del (store w) skey) as [s' [e|]] eqn:Hd; simpl; [|discriminate].
      intros [= <-]. right. exists skey, e. rewrite Hd. repeat split.
    + intros [= <-]. left. auto.
Qed.

End CacheCalls.

Lemma Get_hit_witness :
  Get fx_cache (KInt 42) VChan (Build_World fx_store_warm []) =
    ((VInt 42, None), Build_World fx_store_warm [EvGet "ord.42"]).
Proof.
  apply (Get_hit fx_cache (KInt 42) VChan (Build_World fx_store_warm []) "ord.42"
           fx_store_warm (bytes_of "42") (VInt 42) None).
  - reflexivity.
  - reflexivity.
  - reflexivity.
  - reflexivity.
  - intros e H. discriminate H.
Defined.

Lemma Get_unsupported_key_witness :
  Get fx_cache (KOther "3.14") VChan fx_world =
    ((VChan, Some (Get_err (KOther "3.14") (errors_New "key err: unsupported type"))),
     fx_world).
Proof.
  apply (Get_unsupported_key fx_cache "3.14" VChan fx_world).
  simpl. discriminate.
Defined.

Lemma Get_no_instance_witness :
  Get fx_cache (KInt 42) VChan (Build_World fx_store_lost []) =
    ((VChan, Some (Get_err (KInt 42) (instance_err "orders.cache"))),
     Build_World fx_store_lost []).
Proof.
  apply (Get_no_instance fx_cache (KInt 42) VChan (Build_World fx_store_lost []) "ord.42").
  - reflexivity.
  - reflexivity.
  - simpl. discriminate.
Defined.

Lemma Get_miss_set_error_witness :
  Get fx_cache (KInt 13) VChan fx_replica =
    ((VChan, Some ro_err),
     Build_World {| ro_inner := fx_store |}
       [EvGet "ord.13"; EvLoad (KInt 13); EvSet "ord.13" (bytes_of "boom") 5000000000]).
Proof.
  apply (Get_miss_set_error fx_cache (KInt 13) VChan fx_replica "ord.13"
           {| ro_inner := fx_store |} (errors_New ms_nil) {| ro_inner := fx_store |} ro_err);
    reflexivity.
Defined.

Lemma Get_miss_second_read_error_witness :
  fst (Get fx_cache0 (KInt 42) VChan fx_world) = (VChan, Some (errors_New ms_nil)).
Proof.
  rewrite (Get_miss_second_read_error fx_cache0 (KInt 42) VChan fx_world "ord.42"
             fx_store (errors_New ms_nil)
             (fst (ms_set fx_store "ord.42" (bytes_of "42") 0))
             (fst (ms_set fx_store "ord.42" (bytes_of "42") 0))
             (errors_New ms_nil));
    reflexivity.
Defined.

Lemma Del_success_witness :
  exists skey,
    fixKey fx_cache (KInt 42) = (skey, None) /\
    calls (snd (Del fx_cache (KInt 42) (Build_World fx_store_warm []))) = [EvDel skey].
Proof.
  assert (H : fst (Del fx_cache (KInt 42) (Build_World fx_store_warm [])) = None)
    by reflexivity.
  destruct (Del_success fx_cache (KInt 42) (Build_World fx_store_warm []) H)
    as (skey & Hk & _ & _ & Hw).
  exists skey. split; [exact Hk|]. rewrite Hw. reflexivity.
Defined.

Lemma Del_failure_witness :
  (snd (Del fx_cache (KOther "3.14") fx_world) = fx_world /\
   (snd (fixKey fx_cache (KOther "3.14")) = Some (errors_New "key err: unsupported type") \/
    errors_New "key err: unsupported type" = instance_err (namespace fx_cache))) \/
  (exists skey e,
     fixKey fx_cache (KOther "3.14") = (skey, None) /\
     snd (client_Del (store fx_world) skey) = Some e /\
     errors_New "key err: unsupported type" =
       errors_New ("del cache key: " +:+ Sprintf_v (KOther "3.14") +:+ " err: " +:+ Error e) /\
     calls (snd (Del fx_cache (KOther "3.14") fx_world)) = (calls fx_world ++ [EvDel skey])%list).
Proof.
  assert (H : fst (Del fx_cache (KOther "3.14") fx_world) =
              Some (errors_New "key err: unsupported type")) by reflexivity.
  exact (Del_failure fx_cache (KOther "3.14") fx_world
           (errors_New "key err: unsupported type") H).
Defined.

(** ** Read-through, expiry and deletion over the in-memory store *)

Section MemStoreCycle.
Context {V : Type} {codec : Codec V}.
Implicit Types (m : Cache V) (key : Key) (value : V) (w : World MemStore).

(** The store a [Set] of the entry of [key] leaves. *)
Lemma ms_set_up (s : MemStore) skey data ttl :
  ms_outage s = None ->
  ms_set s skey data ttl =
    ({| ms_entries := <[skey := (data, ms_now s + ttl)]> (ms_entries s);
        ms_now := ms_now s;
        ms_instances := ms_instances s;
        ms_outage := None |}, None).
Proof. intros Ho. unfold ms_set. rewrite Ho. reflexivity. Qed.

Lemma ms_get_dead (s : MemStore) skey data deadline :
  ms_outage s = None ->
  ms_entries s !! skey = Some (data, deadline) ->
  deadline <= ms_now s ->
  ms_get s skey = (s, Fail (errors_New ms_nil)).
Proof.
  intros Ho He Hl. unfold ms_get. rewrite Ho, He.
  destruct (Z.ltb_spec (ms_now s) deadline); [lia | reflexivity].
Qed.

Lemma ms_get_absent (s : MemStore) skey :
  ms_outage s = None ->
  ms_entries s !! skey = None ->
  ms_get s skey = (s, Fail (errors_New ms_nil)).
Proof. intros Ho He. unfold ms_get. rewrite Ho, He. reflexivity. Qed.

(** What a miss leaves behind when the store is up: four calls, and the
    entry of the key under its canonical key, until [expire] from now. *)
Lemma Get_mem_miss m key value w skey :
  fixKey m key = (skey, None) ->
  ms_outage (store w) = None ->
  namespace m ∈ ms_instances (store w) ->
  snd (ms_get (store w) skey) = Fail (errors_New ms_nil) ->
  snd (Get m key value w) =
    Build_World
      {| ms_entries := <[skey := (entry_of m key, ms_now (store w) + expire m)]>
                         (ms_entries (store w));
         ms_now := ms_now (store w);
         ms_instances := ms_instances (store w);
         ms_outage := None |}
      (calls w ++ [EvGet skey; EvLoad key; EvSet skey (entry_of m key) (expire m);
                   EvGet skey]) /\
  (0 < expire m -> fst (Get m key value w) = Unmarshal (entry_of m key) value).
Proof.
  intros Hk Ho Hi Hmiss.
  assert (Hi' : GetInstance (store w) (namespace m) = true)
    by (simpl; apply bool_decide_eq_true; exact Hi).
  assert (Hg : client_Get (store w) skey = (store w, Fail (errors_New ms_nil))).
  { change (client_Get (store w) skey) with (ms_get (store w) skey).
    rewrite (surjective_pairing (ms_get (store w) skey)), ms_get_state, Hmiss.
    reflexivity. }
  pose proof (ms_set_up (store w) skey (entry_of m key) (expire m) Ho) as Hs.
  set (s2 := {| ms_entries := _ |}) in *.
  rewrite (Get_miss_reread m key value w skey (store w) _ s2 Hk Hi' Hg eq_refl Hi' Hs).
  assert (Hi2 : GetInstance s2 (namespace m) = true) by exact Hi'.
  rewrite (getValueFromCache_read m key value (Build_World s2 _) skey Hk Hi2).
  change (client_Get (store (Build_World s2 _)) skey) with (ms_get s2 skey).
  assert (He2 : ms_entries s2 !! skey = Some (entry_of m key, ms_now (store w) + expire m))
    by (simpl; apply lookup_insert_eq).
  rewrite (surjective_pairing (ms_get s2 skey)), ms_get_state.
  split.
  - destruct (ms_get s2 skey).2; simpl; rewrite <- app_assoc; reflexivity.
  - intros Hpos. rewrite (ms_get_live s2 skey _ _ eq_refl He2) by (simpl; lia).
    reflexivity.
Qed.


(** X10.  Expiry.  Over a store that is up, for a cache with a positive
    TTL, after a [Get] that missed, a second [Get] of the key once the TTL
    has elapsed misses again and calls the loader a second time, whatever
    the loader returns. *)
Theorem Get_after_expiry m key skey w (slot1 slot2 : V) (dt : Z) :
  fixKey m key = (skey, None) ->
  ms_outage (store w) = None ->
  namespace m ∈ ms_instances (store w) ->
  snd (ms_get (store w) skey) = Fail (errors_New ms_nil) ->
  0 < expire m ->
  expire m <= dt ->
  let w1 := snd (Get m key slot1 w) in
  let w2 := snd (Get m key slot2 (Build_World (ms_elapse dt (store w1)) (calls w1))) in
  count is_load (calls w1) = S (count is_load (calls w)) /\
  count is_load (calls w2) = S (S (count is_load (calls w))).
Proof.
  intros Hk Ho Hi Hmiss Hpos Hexp.
  destruct (Get_mem_miss m key slot1 w skey Hk Ho Hi Hmiss) as [Hw1 _].
  cbv zeta. rewrite Hw1. simpl.
  split; [rewrite !count_app, !count_cons, !count_nil; simpl; lia|].
  set (w1' := Build_World _ _).
  assert (Hmiss' : snd (ms_get (store w1') skey) = Fail (errors_New ms_nil)).
  { rewrite (ms_get_dead (store w1') skey (entry_of m key) (ms_now (store w) + expire m)).
    - reflexivity.
    - reflexivity.
    - simpl. apply lookup_insert_eq.
    - simpl. lia. }
  destruct (Get_mem_miss m key slot2 w1' skey Hk eq_refl Hi Hmiss') as [Hw2 _].
  rewrite Hw2. simpl. rewrite !count_app, !count_cons, !count_nil. simpl. lia.
Qed.

(** X11.  Deletion.  Over a store that is up, [Del] of a key of a supported
    kind returns nil whether or not the key has an entry, leaves no entry
    under the canonical key, and makes the next [Get] of the key call the
    loader. *)
Theorem Del_then_Get m key skey w value :
  fixKey m key = (skey, None) ->
  ms_outage (store w) = None ->
  namespace m ∈ ms_instances (store w) ->
  let r := Del m key w in
  fst r = None /\
  ms_entries (store (snd r)) !! skey = None /\
  calls (snd r) = (calls w ++ [EvDel skey])%list /\
  count is_load (calls (snd (Get m key value (snd r)))) = S (count is_load (calls w)).
Proof.
  intros Hk Ho Hi.
  assert (Hi' : GetInstance (store w) (namespace m) = true)
    by (simpl; apply bool_decide_eq_true; exact Hi).
  assert (HD : Del m key w =
    (None, Build_World {| ms_entries := delete skey (ms_entries (store w));
                          ms_now := ms_now (store w);
                          ms_instances := ms_instances (store w);
                          ms_outage := None |} (calls w ++ [EvDel skey]))).
  { unfold Del. rewrite Hk. unfold bind, instance, redis_Del, ret. rewrite Hi'. simpl.
    unfold ms_del. rewrite Ho. reflexivity. }
  cbv zeta. rewrite HD. simpl.
  split; [reflexivity|]. split; [apply lookup_delete_eq|]. split; [reflexivity|].
  set (w1 := Build_World _ _).
  assert (Hmiss : snd (ms_get (store w1) skey) = Fail (errors_New ms_nil)).
  { rewrite (ms_get_absent (store w1) skey); [reflexivity | reflexivity |].
    simpl. apply lookup_delete_eq. }
  destruct (Get_mem_miss m key value w1 skey Hk eq_refl Hi Hmiss) as [Hw2 _].
  rewrite Hw2. simpl. rewrite !count_app, !count_cons, !count_nil. simpl. lia.
Qed.

End MemStoreCycle.


Lemma Get_after_expiry_witness :
  let w1 := snd (Get fx_cache (KInt 42) VChan fx_world) in
  let w2 := snd (Get fx_cache (KInt 42) VChan
                   (Build_World (ms_elapse 5000000000 (store w1)) (calls w1))) in
  count is_load (calls w1) = 1%nat /\ count is_load (calls w2) = 2%nat.
Proof.
  refine (Get_after_expiry fx_cache (KInt 42) "ord.42" fx_world VChan VChan 5000000000
            eq_refl eq_refl _ eq_refl _ _).
  - vm_compute. constructor.
  - change (0 < 5000000000). lia.
  - change (5000000000 <= 5000000000). lia.
Defined.

Lemma Del_then_Get_witness :
  let r := Del fx_cache (KInt 42) (Build_World fx_store_warm []) in
  fst r = None /\
  ms_entries (store (snd r)) !! "ord.42" = None /\
  calls (snd r) = [EvDel "ord.42"] /\
  count is_load (calls (snd (Get fx_cache (KInt 42) VChan (snd r)))) = 1%nat.
Proof.
  refine (Del_then_Get fx_cache (KInt 42) "ord.42" (Build_World fx_store_warm []) VChan
            eq_refl eq_refl _).
  vm_compute. constructor.
Defined.

(** ** Canonical keys and namespaces *)

Section CanonicalKeys.
Context {V : Type}.
Implicit Types (m : Cache V) (key : Key).

Lemma append_inv_head (p s1 s2 : string) : p +:+ s1 = p +:+ s2 -> s1 = s2.
Proof. induction p as [|c p IH]; simpl; [auto|]. intros [= H]. auto. Qed.

(** The prefix never merges two keys [keyToString] tells apart. *)
Lemma fixKey_inj m k1 k2 :
  fixKey m k1 = fixKey m k2 -> keyToString m k1 = keyToString m k2.
Proof.
  unfold fixKey.
  destruct (keyToString m k1) as [s1 [e1|]] eqn:E1;
    destruct (keyToString m k2) as [s2 [e2|]] eqn:E2;
    destruct (0 <? String.length (prefix m))%nat; try discriminate.
  - destruct k1; try discriminate E1; destruct k2; try discriminate E2.
    simpl in E1, E2. congruence.
  - destruct k1; try discriminate E1; destruct k2; try discriminate E2.
    simpl in E1, E2. congruence.
  - intros [= H]. do 2 apply append_inv_head in H. congruence.
  - congruence.
Qed.

(** X12.  Within one cache, two numeric keys of any supported kinds get
    the same canonical store key only when they hold the same integer. *)
Theorem fixKey_numeric_inj m k1 k2 (a b : Z) :
  key_int k1 = Some a ->
  key_int k2 = Some b ->
  fixKey m k1 = fixKey m k2 ->
  a = b.
Proof.
  intros H1 H2 H. apply fixKey_inj in H.
  rewrite (keyToString_numeric m k1 a H1), (keyToString_numeric m k2 b H2) in H.
  injection H as H. exact (Sprintf_d_inj a b H).
Qed.

Lemma Replace1_length (s : string) (old new : ascii) :
  String.length (Replace1 s old new) = String.length s.
Proof. induction s as [|c s IH]; simpl; congruence. Qed.

Lemma Replace1_get (s : string) (old new : ascii) (i : nat) :
  String.get i (Replace1 s old new) =
    match String.get i s with
    | Some c => Some (if Ascii.eqb c old then new else c)
    | None => None
    end.
Proof.
  revert i. induction s as [|c s IH]; intros i; simpl; [reflexivity|].
  destruct i; [reflexivity | apply IH].
Qed.

(** X13.  The namespace of a cache [NewCache] builds has the length of the
    namespace given, a dot wherever that has a slash and its character
    everywhere else; so it holds no slash, and building a cache from it
    again changes nothing. *)
Theorem NewCache_namespace (ns pre : string) (ttl : Z) (ld : Key -> result V) (i : nat) :
  String.length (namespace (NewCache ns pre ttl ld)) = String.length ns /\
  String.get i (namespace (NewCache ns pre ttl ld)) =
    match String.get i ns with
    | Some c => Some (if Ascii.eqb c "/" then "."%char else c)
    | None => None
    end /\
  String.get i (namespace (NewCache ns pre ttl ld)) <> Some "/"%char /\
  namespace (NewCache (namespace (NewCache ns pre ttl ld)) pre ttl ld) =
    namespace (NewCache ns pre ttl ld).
Proof.
  simpl. split; [apply Replace1_length|]. split; [apply Replace1_get|]. split.
  - rewrite Replace1_get. destruct (String.get i ns) as [c|]; [|discriminate].
    destruct (Ascii.eqb c "/") eqn:E; [discriminate|].
    apply Ascii.eqb_neq in E. intros [= ->]. apply E. reflexivity.
  - clear i. induction ns as [|c ns IH]; simpl; [reflexivity|].
    rewrite IH. f_equal.
    destruct (Ascii.eqb c "/") eqn:E; [reflexivity | rewrite E; reflexivity].
Qed.

End CanonicalKeys.

Lemma fixKey_numeric_inj_witness : (42 : Z) = 42.
Proof.
  exact (fixKey_numeric_inj fx_cache (KInt8 42) (KUint64 42) 42 42 eq_refl eq_refl eq_refl).
Defined.

(** ** Batches of messages and the trace across an envelope *)

Section Batches.
Context {V : Type} {codec : Codec V} {tracer : Tracer} {K : Type}.
Implicit Types (ctx : Context) (msgs : list (Message K V)) (nmsgs : list (Message K Payload)).

Lemma range_msgs_pointwise ctx msgs (acc nmsgs : list (Message K Payload)) :
  range_msgs (inject_span ctx) (ValueHead ctx) msgs acc = (Some nmsgs, None) ->
  exists tail,
    nmsgs = (acc ++ tail)%list /\
    Forall2 (fun msg nmsg =>
               MsgKey nmsg = MsgKey msg /\
               generatePayload ctx (MsgValue msg) = (Some (MsgValue nmsg), None))
            msgs tail.
Proof.
  revert acc. induction msgs as [|msg msgs IH]; intros acc; simpl.
  - intros [= <-]. exists []. rewrite app_nil_r. split; [reflexivity | constructor].
  - destruct (Marshal (MsgValue msg)) as [body|err] eqn:Em; [|discriminate].
    intros H. destruct (IH _ H) as (tail & -> & HF).
    eexists (_ :: tail). split; [rewrite <- app_assoc; reflexivity|].
    constructor; [|exact HF]. simpl. split; [reflexivity|].
    apply (generatePayload_ok ctx (MsgValue msg) body Em).
Qed.

(** X14.  A batch that [generateMsgsPayload] accepts is made message by
    message of what [generatePayload] makes of each value in the same
    context, under the key of the message. *)
Theorem generateMsgsPayload_pointwise ctx msgs nmsgs :
  generateMsgsPayload ctx msgs = (Some nmsgs, None) ->
  Forall2 (fun msg nmsg =>
             MsgKey nmsg = MsgKey msg /\
             generatePayload ctx (MsgValue msg) = (Some (MsgValue nmsg), None))
          msgs nmsgs.
Proof.
  intros H. apply range_msgs_pointwise in H.
  destruct H as (tail & -> & HF). exact HF.
Qed.

Lemma range_msgs_first_failure carrier head (pre : list (Message K V)) msg post
    (acc : list (Message K Payload)) (e : error) :
  Forall (fun x => exists d, Marshal (MsgValue x) = Ok d) pre ->
  Marshal (MsgValue msg) = Fail e ->
  range_msgs carrier head (pre ++ msg :: post) acc = (None, Some e).
Proof.
  intros Hpre Hm. revert acc. induction Hpre as [|x pre [d Hd] _ IH]; intros acc; simpl.
  - rewrite Hm. reflexivity.
  - rewrite Hd. apply IH.
Qed.

(** X15.  A batch is refused as a whole at its first message whose value
    does not encode: the error is the encoder's for that message and no
    message is returned, whatever comes after it. *)
Theorem generateMsgsPayload_first_failure ctx (pre : list (Message K V)) msg post
    (e : error) :
  Forall (fun x => exists d, Marshal (MsgValue x) = Ok d) pre ->
  Marshal (MsgValue msg) = Fail e ->
  generateMsgsPayload ctx (pre ++ msg :: post) = (None, Some e).
Proof. intros Hpre Hm. apply range_msgs_first_failure; assumption. Qed.

Lemma range_msgs_total carrier head msgs (acc : list (Message K Payload)) :
  Forall (fun x => exists d, Marshal (MsgValue x) = Ok d) msgs ->
  exists nmsgs, range_msgs carrier head msgs acc = (Some nmsgs, None).
Proof.
  intros H. revert acc. induction H as [|x msgs [d Hd] _ IH]; intros acc; simpl.
  - eauto.
  - rewrite Hd. apply IH.
Qed.

(** X16.  A batch all of whose values encode is accepted, the empty batch
    included. *)
Theorem generateMsgsPayload_accepts ctx msgs :
  Forall (fun x => exists d, Marshal (MsgValue x) = Ok d) msgs ->
  exists nmsgs, generateMsgsPayload ctx msgs = (Some nmsgs, None).
Proof. intros H. apply range_msgs_total. exact H. Qed.

End Batches.

Section TraceAcrossEnvelope.
Context {V : Type} {codec : Codec V} {tracer : Tracer}.
Implicit Types (ctx : Context) (opName : string).

(** X17.  The trace crosses the envelope.  When the context has an active
    span whose context the tracer extracts again from what it injected,
    the context [parsePayload] returns for the envelope of
    [generatePayload] carries a span started as the RPC-server side of
    that span context, and the head of the original context. *)
Theorem payload_trace_continues ctx (sp : Span) (v slot out : V) (data : list Byte.byte)
    opName :
  SpanFromContext ctx = Some sp ->
  Extract (Inject (SpanCtx sp) ∅) = Ok (SpanCtx sp) ->
  Marshal v = Ok data ->
  Unmarshal data slot = (out, None) ->
  exists payload,
    generatePayload ctx v = (Some payload, None) /\
    parsePayload payload opName slot =
      ((Some {| SpanFromContext := Some (StartSpan opName [RPCServerOption (SpanCtx sp)]);
                ValueHead := ValueHead ctx |}, None), out).
Proof.
  intros Hsp Hx Hm Hu. eexists. split; [apply (generatePayload_ok ctx v data Hm)|].
  unfold parsePayload, server_span, inject_span. simpl.
  rewrite Hsp, Hx, bytes_of_string_of, Hu. reflexivity.
Qed.

(** X18.  Without an active span the carrier is empty; when the tracer
    extracts nothing from the empty carrier, the context [parsePayload]
    returns carries a span started without reference. *)
Theorem payload_trace_starts ctx (v slot out : V) (data : list Byte.byte) opName
    (e : error) :
  SpanFromContext ctx = None ->
  Extract ∅ = Fail e ->
  Marshal v = Ok data ->
  Unmarshal data slot = (out, None) ->
  exists payload,
    generatePayload ctx v = (Some payload, None) /\
    Carrier payload = ∅ /\
    parsePayload payload opName slot =
      ((Some {| SpanFromContext := Some (StartSpan opName []);
                ValueHead := ValueHead ctx |}, None), out).
Proof.
  intros Hsp Hx Hm Hu. eexists. split; [apply (generatePayload_ok ctx v data Hm)|].
  unfold parsePayload, server_span, inject_span. simpl.
  rewrite Hsp, Hx, bytes_of_string_of, Hu. split; reflexivity.
Qed.

End TraceAcrossEnvelope.

Lemma generateMsgsPayload_pointwise_witness :
  exists nmsgs,
    generateMsgsPayload Background
      [Build_Message "a" (VInt 1); Build_Message "b" (VInt 2)] = (Some nmsgs, None) /\
    Forall2 (fun msg nmsg =>
               MsgKey nmsg = MsgKey msg /\
               generatePayload Background (MsgValue msg) = (Some (MsgValue nmsg), None))
            [Build_Message "a" (VInt 1); Build_Message "b" (VInt 2)] nmsgs.
Proof.
  eexists. split; [reflexivity|].
  apply (generateMsgsPayload_pointwise Background
           [Build_Message "a" (VInt 1); Build_Message "b" (VInt 2)]).
  reflexivity.
Defined.

Lemma generateMsgsPayload_first_failure_witness :
  generateMsgsPayload Background
    ([Build_Message "a" (VInt 1)] ++ Build_Message "b" VChan :: [Build_Message "c" (VInt 3)]) =
    (None, Some (errors_New "json: unsupported type: chan int")).
Proof.
  apply (generateMsgsPayload_first_failure Background
           [Build_Message "a" (VInt 1)] (Build_Message "b" VChan)
           [Build_Message "c" (VInt 3)]).
  - constructor; [|constructor]. eexists. reflexivity.
  - reflexivity.
Defined.

Lemma generateMsgsPayload_accepts_witness :
  exists nmsgs,
    generateMsgsPayload Background [Build_Message "a" (VInt 1)] = (Some nmsgs, None).
Proof.
  apply (generateMsgsPayload_accepts Background [Build_Message "a" (VInt 1)]).
  constructor; [|constructor]. eexists. reflexivity.
Defined.

Lemma payload_trace_continues_witness :
  exists payload,
    generatePayload
      {| SpanFromContext :=
           Some {| OperationName := "produce"; SpanOptions := [];
                   SpanCtx := JaegerSpanContext {| High := 0; Low := 5 |} 9 |};
         ValueHead := HeadNil |} (VInt 42) = (Some payload, None) /\
    parsePayload payload "consume" VChan =
      ((Some {| SpanFromContext :=
                  Some (StartSpan "consume"
                          [RPCServerOption (JaegerSpanContext {| High := 0; Low := 5 |} 9)]);
                ValueHead := HeadNil |}, None), VInt 42).
Proof.
  assert (Hx : Extract (Inject (JaegerSpanContext {| High := 0; Low := 5 |} 9) ∅) =
               Ok (JaegerSpanContext {| High := 0; Low := 5 |} 9)) by reflexivity.
  assert (Hm : Marshal (VInt 42) = Ok (bytes_of "42")) by reflexivity.
  assert (Hu : Unmarshal (bytes_of "42") VChan = (VInt 42, None)) by reflexivity.
  exact (payload_trace_continues
           {| SpanFromContext :=
                Some {| OperationName := "produce"; SpanOptions := [];
                        SpanCtx := JaegerSpanContext {| High := 0; Low := 5 |} 9 |};
              ValueHead := HeadNil |}
           {| OperationName := "produce"; SpanOptions := [];
              SpanCtx := JaegerSpanContext {| High := 0; Low := 5 |} 9 |}
           (VInt 42) VChan (VInt 42) (bytes_of "42") "consume" eq_refl Hx Hm Hu).
Defined.

Lemma payload_trace_starts_witness :
  exists payload,
    generatePayload Background (VInt 42) = (Some payload, None) /\
    Carrier payload = ∅ /\
    parsePayload payload "consume" VChan =
      ((Some {| SpanFromContext := Some (StartSpan "consume" []);
                ValueHead := ValueHead Background |}, None), VInt 42).
Proof.
  assert (Hx : Extract ∅ = Fail fx_notfound) by reflexivity.
  assert (Hm : Marshal (VInt 42) = Ok (bytes_of "42")) by reflexivity.
  assert (Hu : Unmarshal (bytes_of "42") VChan = (VInt 42, None)) by reflexivity.
  exact (payload_trace_starts Background (VInt 42) VChan (VInt 42) (bytes_of "42")
           "consume" fx_notfound eq_refl Hx Hm Hu).
Defined.

(** ** The columns and the text of a log context *)

Section LogText.
Variable tid : TraceID -> string.
Implicit Types (ctx : Context) (ckv : contextKV).

(** X19.  With [fullHead] off, a head that is found is cut down to the one
    field [uid]: the result has that key and no other, holding the
    header's [uid], or nil when the header has none; with [fullHead] on the
    whole projection is returned. *)
Theorem extractHead_short ctx ckv :
  extractHead ctx false = (None, ckv) ->
  exists kv : gmap string Any,
    ValueHead ctx = HeadKV kv /\
    ckv = {[ contextKeyOpUid := default AnyNil (kv !! contextKeyOpUid) ]} /\
    dom ckv = {[ contextKeyOpUid ]} /\
    extractHead ctx true = (None, kv).
Proof.
  unfold extractHead. destruct (ValueHead ctx) as [|kv|d]; try discriminate.
  intros [= <-]. exists kv. repeat split; try apply dom_singleton_L.
Qed.

(** X20.  The result of [extractContext] for a context that is not nil
    always starts with a map of the one key [traceID] holding a trace
    identifier, the real one or the zero one; with [fullHead] off its
    second element is a map of the one key [uid]. *)
Theorem extractContext_columns ctx :
  exists (t : TraceID) (v : Any) (h : contextKV),
    extractContext (Some ctx) false =
      [ {[ contextKeyTraceID := AnyTraceID t ]}; {[ contextKeyOpUid := v ]} ] /\
    extractContext (Some ctx) true =
      [ {[ contextKeyTraceID := AnyTraceID t ]}; h ].
Proof.
  unfold extractContext. rewrite extractTraceID_cases.
  destruct (SpanFromContext ctx) as [[op opts [t i|n]]|];
    unfold extractHead; destruct (ValueHead ctx) as [|kv|d]; simpl;
    eexists _, _, _; split; reflexivity.
Qed.

Lemma range_of_singleton (k : string) (v : Any) (order : list (string * Any)) :
  range_of {[ k := v ]} order -> order = [(k, v)].
Proof.
  unfold range_of. rewrite map_to_list_singleton.
  apply Permutation_singleton_r.
Qed.

(** X22.  The text of a log context with [fullHead] off: the trace
    identifier, a blank, and, when the [uid] is an [int64], its decimal
    text filled to ten characters followed by three blanks; a [uid] of
    another kind leaves the head column empty.  The text does not depend
    on the order in which the maps are ranged over. *)
Theorem extractContextAsString_short ctx (t : TraceID) (v : Any)
    (range : nat -> contextKV -> list (string * Any)) :
  (forall i ckv, range_of ckv (range i ckv)) ->
  extractContext (Some ctx) false =
    [ {[ contextKeyTraceID := AnyTraceID t ]}; {[ contextKeyOpUid := v ]} ] ->
  extractContextAsString tid (Some ctx) false range =
    tid t +:+ " " +:+
    match v with
    | AnyInt64 uid => Sprintf_left10d uid +:+ " " +:+ "  "
    | _ => ""
    end.
Proof.
  intros Hr He. unfold extractContextAsString. rewrite He. simpl.
  rewrite (range_of_singleton _ _ _ (Hr 0%nat _)), (range_of_singleton _ _ _ (Hr 1%nat _)).
  unfold contextKV_String.
  rewrite !lookup_singleton_eq.
  rewrite (lookup_singleton_ne contextKeyTraceID contextKeyOpUid) by discriminate.
  rewrite (lookup_singleton_ne contextKeyOpUid contextKeyTraceID) by discriminate.
  destruct v; reflexivity.
Qed.

End LogText.

Lemma extractHead_short_witness :
  exists kv : gmap string Any,
    HeadKV {[ "uid" := AnyInt64 7; "lang" := AnyString "en" ]} = HeadKV kv /\
    dom ({[ "uid" := AnyInt64 7 ]} : gmap string Any) = {[ "uid" ]}.
Proof.
  destruct (extractHead_short
              {| SpanFromContext := None;
                 ValueHead := HeadKV {[ "uid" := AnyInt64 7; "lang" := AnyString "en" ]} |}
              {[ "uid" := AnyInt64 7 ]} eq_refl) as (kv & Hk & _ & Hd & _).
  exists kv. exact (conj Hk Hd).
Defined.

Lemma extractContextAsString_short_witness :
  extractContextAsString (fun t => Sprintf_d (Low t)) (Some Background) false
    (fun _ ckv => map_to_list ckv) =
    "0" +:+ " " +:+ (Sprintf_left10d 0 +:+ " " +:+ "  ").
Proof.
  apply (extractContextAsString_short (fun t => Sprintf_d (Low t)) Background
           {| High := 0; Low := 0 |} (AnyInt64 0) (fun _ ckv => map_to_list ckv)).
  - intros i ckv. unfold range_of. reflexivity.
  - reflexivity.
Defined.

(** ** The names of the configurer types *)

(** X23.  [ConfigerType.String] gives every value that is none of the
    three declared types the name [unkown], gives no declared type that
    name, and gives two different declared types different names. *)
Theorem ConfigerType_String_names (c1 c2 c3 : Z) :
  0 <= c1 <= 2 ->
  0 <= c2 <= 2 ->
  ~ 0 <= c3 <= 2 ->
  ConfigerType_String c3 = "unkown" /\
  ConfigerType_String c1 <> "unkown" /\
  (c1 = c2 \/ ConfigerType_String c1 <> ConfigerType_String c2).
Proof.
  intros H1 H2 H3.
  unfold ConfigerType_String, ConfigerTypeSimple, ConfigerTypeEtcd, ConfigerTypeApollo.
  repeat split.
  - destruct (Z.eqb_spec c3 0); [lia|]. destruct (Z.eqb_spec c3 1); [lia|].
    destruct (Z.eqb_spec c3 2); [lia|]. reflexivity.
  - destruct (Z.eqb_spec c1 0); [discriminate|]. destruct (Z.eqb_spec c1 1); [discriminate|].
    destruct (Z.eqb_spec c1 2); [discriminate|]. lia.
  - destruct (Z.eq_dec c1 c2) as [E|E]; [left; exact E|right].
    destruct (Z.eqb_spec c1 0); [|destruct (Z.eqb_spec c1 1); [|destruct (Z.eqb_spec c1 2)]];
      (destruct (Z.eqb_spec c2 0); [|destruct (Z.eqb_spec c2 1); [|destruct (Z.eqb_spec c2 2)]]);
      try discriminate; lia.
Qed.

Lemma ConfigerType_String_names_witness :
  ConfigerType_String 7 = "unkown" /\
  ConfigerType_String ConfigerTypeSimple <> "unkown" /\
  (ConfigerTypeSimple = ConfigerTypeEtcd \/
   ConfigerType_String ConfigerTypeSimple <> ConfigerType_String ConfigerTypeEtcd).
Proof.
  apply (ConfigerType_String_names ConfigerTypeSimple ConfigerTypeEtcd 7).
  - unfold ConfigerTypeSimple. lia.
  - unfold ConfigerTypeEtcd. lia.
  - lia.
Defined.

(** ** Where a result of [Get] comes from *)

Section GetSuccess.
Context {V : Type} {codec : Codec V} {St : Type} {client : Client St}.
Implicit Types (m : Cache V) (key : Key) (value : V) (w : World St).

Lemma getValueFromCache_success m key value w (out : V) (w' : World St) :
  getValueFromCache m key value w = ((out, None), w') ->
  exists skey s' data,
    fixKey m key = (skey, None) /\
    client_Get (store w) skey = (s', Ok data) /\
    Unmarshal data value = (out, None) /\
    w' = Build_World s' (calls w ++ [EvGet skey]).
Proof.
  unfold getValueFromCache.
  destruct (fixKey m key) as [skey [e|]]; simpl; [discriminate|].
  unfold bind, instance, redis_Get, ret.
  destruct (GetInstance (store w) (namespace m)); simpl; [|discriminate].
  destruct (client_Get (store w) skey) as [s' [data|e]] eqn:Hg; simpl; [|discriminate].
  intros [= Hu <-]. exists skey, s', data. repeat split; assumption.
Qed.

(** X24.  A nil result of [Get] always ends with a read of the canonical
    key that found bytes which the decoder accepted, and the slot holds
    what the decoder made of them: also after a load, the value handed out
    is the one read back from the store, never the loader's own. *)
Theorem Get_success_is_decoded m key value w :
  snd (fst (Get m key value w)) = None ->
  exists skey s s' data slot0 tr,
    fixKey m key = (skey, None) /\
    client_Get s skey = (s', Ok data) /\
    Unmarshal data slot0 = (fst (fst (Get m key value w)), None) /\
    snd (Get m key value w) = Build_World s' (tr ++ [EvGet skey]).
Proof.
  unfold Get. unfold bind at 1 3 5.
  destruct (getValueFromCache m key value w) as [[v1 err1] w1] eqn:E1.
  destruct err1 as [e1|]; simpl.
  - destruct (negb (Error e1 =? RedisNil)); simpl; [discriminate|].
    unfold bind.
    destruct (loadValueToCache m key w1) as [err2 w2] eqn:E2.
    destruct err2 as [e2|]; simpl; [discriminate|].
    destruct (getValueFromCache m key v1 w2) as [[v3 err3] w3] eqn:E3. simpl.
    intros ->.
    destruct (getValueFromCache_success m key v1 w2 v3 w3 E3)
      as (skey & s' & data & Hk & Hg & Hu & ->).
    exists skey, (store w2), s', data, v1, (calls w2). auto.
  - intros _.
    destruct (getValueFromCache_success m key value w v1 w1 E1)
      as (skey & s' & data & Hk & Hg & Hu & ->).
    exists skey, (store w), s', data, value, (calls w). auto.
Qed.

End GetSuccess.

Lemma Get_success_is_decoded_witness :
  exists skey s s' data slot0 tr,
    fixKey fx_cache (KInt 42) = (skey, None) /\
    client_Get s skey = (s', Ok data) /\
    Unmarshal data slot0 = (fst (fst (Get fx_cache (KInt 42) VChan fx_world)), None) /\
    snd (Get fx_cache (KInt 42) VChan fx_world) = Build_World s' (tr ++ [EvGet skey]).
Proof.
  assert (H : snd (fst (Get fx_cache (KInt 42) VChan fx_world)) = None) by reflexivity.
  exact (Get_success_is_decoded fx_cache (KInt 42) VChan fx_world H).
Defined.
